(** * simple_client.py: the tool-calling loop of the Google Forms client

    A shallow embedding of [src/simple_client.py]: the [MCPClient] wrapper,
    [build_openai_tools_schema], [tool_result_to_text] and the bounded
    tool-calling loop of [main].  The language-model endpoint, the MCP
    session, [json.loads] and the builtin [str] are external to the
    program and gathered in the interface [Env]; the FastMCP [Client]
    that [MCPClient] wraps is the interface [Library].  The checks of
    [main] before the loop and its [finally] are in [run_main], over the
    interface [Host]. *)

From Stdlib Require Import List String Ascii Bool Arith ZArith Lia DecimalString.
Import ListNotations.
Open Scope string_scope.
Set Warnings "-register-all".

(** ** Python values and exceptions *)

(** The values the program inspects dynamically.  [PObj] is an object
    that has neither a [get] method nor a [name] attribute (what
    [hasattr] and attribute lookup see of a foreign object). *)
Inductive PyVal : Type :=
| PNone
| PBool (b : bool)
| PInt (z : Z)
| PStr (s : string)
| PList (l : list PyVal)
| PDict (d : list (string * PyVal))
| PObj (tag : string).

(** Outcome of a Python expression that may raise an [Exception];
    [Raise] carries [str(e)]. *)
Inductive Exc (A : Type) : Type :=
| Ok (a : A)
| Raise (msg : string).
Arguments Ok {A} a.
Arguments Raise {A} msg.

Definition bind {A B : Type} (c : Exc A) (k : A -> Exc B) : Exc B :=
  match c with
  | Ok a => k a
  | Raise e => Raise e
  end.

(** [try: c except Exception: h] *)
Definition try_except {A : Type} (c : Exc A) (h : string -> Exc A) : Exc A :=
  match c with
  | Ok a => Ok a
  | Raise e => h e
  end.

Notation "x <- c ;; k" := (bind c (fun x => k))
  (at level 61, c at next level, right associativity).

(** Truth value of a Python object, as used by [or] and [if]. *)
Definition truthy (v : PyVal) : bool :=
  match v with
  | PNone => false
  | PBool b => b
  | PInt z => negb (Z.eqb z 0)
  | PStr s => negb (s =? "")
  | PList l => match l with [] => false | _ :: _ => true end
  | PDict d => match d with [] => false | _ :: _ => true end
  | PObj _ => true
  end.

(** [a or b] *)
Definition py_or (a b : PyVal) : PyVal := if truthy a then a else b.

(** [d.get(key, default)] on a dictionary. *)
Fixpoint dict_get (d : list (string * PyVal)) (key : string) (default : PyVal) : PyVal :=
  match d with
  | [] => default
  | (k, v) :: d' => if k =? key then v else dict_get d' key default
  end.

(** [v.get(key, default)]: only dictionaries have the method. *)
Definition py_get (v : PyVal) (key : string) (default : PyVal) : Exc PyVal :=
  match v with
  | PDict d => Ok (dict_get d key default)
  | _ => Raise "AttributeError: object has no attribute 'get'"
  end.

Definition newline : string := String (ascii_of_nat 10) EmptyString.

(** [sep.join(items)]: raises [TypeError] on an item that is not a string. *)
Fixpoint str_join (sep : string) (items : list PyVal) : Exc string :=
  match items with
  | [] => Ok ""
  | [PStr s] => Ok s
  | PStr s :: rest => r <- str_join sep rest ;; Ok (s ++ sep ++ r)
  | _ :: _ => Raise "TypeError: sequence item: expected str instance"
  end.

(** ** Tool descriptors and the function schema *)

(** A tool as [list_tools] yields it: a [Tool] object with the attributes
    [name], [description], [inputSchema], or a dictionary. *)
Inductive ToolDescriptor : Type :=
| ToolObject (name description inputSchema : PyVal)
| ToolDict (d : list (string * PyVal)).

(** The dictionary under the key ["function"] of a schema entry; the
    entry's ["type"] is always ["function"]. *)
Record FunctionSpec : Type := {
  fs_name : PyVal;
  fs_description : PyVal;
  fs_parameters : PyVal
}.

Definition empty_object_schema : PyVal :=
  PDict [("type", PStr "object"); ("properties", PDict [])].

Definition tool_schema (tool : ToolDescriptor) : FunctionSpec :=
  match tool with
  | ToolObject name description inputSchema =>
      {| fs_name := name;
         fs_description := py_or description (PStr "");
         fs_parameters := py_or inputSchema empty_object_schema |}
  | ToolDict d =>
      {| fs_name := dict_get d "name" (PStr "unknown");
         fs_description := dict_get d "description" (PStr "");
         fs_parameters := dict_get d "inputSchema" empty_object_schema |}
  end.

Definition build_openai_tools_schema (tools : list ToolDescriptor) : list FunctionSpec :=
  map tool_schema tools.

(** ** Conversation data *)

Record FunctionCall : Type := {
  fn_name : string;
  fn_arguments : option string
}.

(** An entry of [msg.tool_calls]. *)
Record ToolCall : Type := {
  tc_id : string;
  tc_type : string;
  tc_function : FunctionCall
}.

(** A transcript entry, one constructor per ["role"]. *)
Inductive Message : Type :=
| MSystem (content : string)
| MUser (content : string)
| MAssistant (content : string) (tool_calls : list ToolCall)
| MTool (tool_call_id : string) (content : string).

(** [response.choices[0].message]; an absent or [None] [tool_calls] is
    the empty list, which [getattr(msg, "tool_calls", None)] treats alike. *)
Record ChatMessage : Type := {
  msg_content : option string;
  msg_tool_calls : list ToolCall
}.

(** Arguments of [client.chat.completions.create]; the model name and the
    temperature are constants, [tool_choice="auto"] goes with [tools]. *)
Record CompletionRequest : Type := {
  req_messages : list Message;
  req_tools : option (list FunctionSpec)
}.

(** What the program does that is visible from outside: the completion
    requests, the tool calls, and of its prints those that report the
    model's text and the iteration count.  The print of a tool result,
    whose failure the program handles, is [print_result] of [Env]. *)
Inductive Event : Type :=
| ECompletion (req : CompletionRequest)
| EInvoke (name : string) (args : PyVal)
| EPrintAssistant (text : string)
| EPrintCompleted (iteration : nat)
| EPrintFinal (text : option string).

(** ** The environment of a run *)

Class Env : Type := {
  world : Type;
  (** the builtin [str] on tool results, which calls the [__str__] of
      the value and raises when that raises *)
  py_str : PyVal -> Exc string;
  (** [json.loads] *)
  json_loads : string -> Exc PyVal;
  (** [client.chat.completions.create(...).choices[0].message] *)
  complete : world -> CompletionRequest -> world * ChatMessage;
  (** [mcp_client.call_tool(name, args)] *)
  call_tool : world -> string -> PyVal -> world * Exc PyVal;
  (** [print("Tool result:", result_text)], the one print inside a
      [try] whose handler stores a message *)
  print_result : world -> string -> world * Exc unit
}.

(** ** tool_result_to_text *)

Definition is_text_block (block : PyVal) : bool :=
  match block with
  | PDict d =>
      match dict_get d "type" PNone with
      | PStr s => s =? "text"
      | _ => false
      end
  | _ => false
  end.

Definition block_text (block : PyVal) : PyVal :=
  match block with
  | PDict d => dict_get d "text" (PStr "")
  | _ => PNone
  end.

Fixpoint collect_texts (content : list PyVal) : list PyVal :=
  match content with
  | [] => []
  | block :: rest =>
      if is_text_block block then block_text block :: collect_texts rest
      else collect_texts rest
  end.

(** The body of the [try]. *)
Definition tool_result_to_text_try `{Env} (result : PyVal) : Exc string :=
  content <- py_get result "content" (PList []) ;;
  match content with
  | PList blocks => str_join newline (collect_texts blocks)
  | _ => py_str result
  end.

Definition tool_result_to_text `{Env} (result : PyVal) : Exc string :=
  try_except (tool_result_to_text_try result) (fun _ => py_str result).

(** ** MCPClient *)

(** The FastMCP [Client] is foreign code: [Library] gives the state of
    such an object, its constructor and the outcome of entering and
    leaving its context. *)
Class Library : Type := {
  conn : Type;
  Client : string -> Exc conn;
  aenter : conn -> conn * Exc unit;
  aexit : conn -> conn * Exc unit
}.

(** Calls made on the underlying [Client] object. *)
Inductive ClientCall : Type :=
| CallAEnter
| CallAExit.

Module MCPClient.

Record t `{Library} : Type := {
  server_path : string;
  client : option conn
}.

(** [__init__] *)
Definition init `{Library} (path : string) : t :=
  {| server_path := path; client := None |}.

(** [start]: the attribute is assigned before [__aenter__] is awaited. *)
Definition start `{Library} (self : t) : t * Exc unit * list ClientCall :=
  match Client (server_path self) with
  | Ok c =>
      let (c', r) := aenter c in
      ({| server_path := server_path self; client := Some c' |}, r, [CallAEnter])
  | Raise e => (self, Raise e, [])
  end.

(** [stop] *)
Definition stop `{Library} (self : t) : t * Exc unit * list ClientCall :=
  match client self with
  | Some c =>
      let (c', r) := aexit c in
      ({| server_path := server_path self; client := Some c' |}, r, [CallAExit])
  | None => (self, Ok tt, [])
  end.

End MCPClient.

(** ** The tool-calling loop of main *)

Definition system_prompt : string :=
  "You are a helpful assistant that creates Google Forms. IMPORTANT: When creating forms, you can ONLY set the title during creation - do NOT include a description parameter. After creating a form, you MUST immediately add ALL the requested questions using add_text_question and add_multiple_choice_question tools in the EXACT ORDER they appear in the user input. Do not reorder questions - maintain the sequence provided. Do not stop after creating the form - continue until all questions are added. Parse the user input to extract the title and questions. For multiple choice questions, if options are provided in parentheses, use them. Otherwise, create reasonable default options. REQUIRED QUESTIONS: If a question is prefixed with 'required' (e.g., 'required How would you rate me...'), set required: true. If no 'required' prefix is present, set required: false. Always provide the final form URL when complete.".

Definition nudge : Message :=
  MUser "Continue adding the remaining questions. Don't ask for confirmation - just add them immediately.".

Definition max_iterations : nat := 10.

(** The mutable part of a run: the outside world, [messages], and the
    events so far, oldest first. *)
Record State `{Env} : Type := {
  st_world : world;
  st_messages : list Message;
  st_events : list Event
}.

(** [msg.content or ""] *)
Definition content_or_empty (content : option string) : string :=
  match content with
  | Some s => s
  | None => ""
  end.

(** [if msg.content: print("Assistant:", msg.content)] *)
Definition print_assistant (content : option string) : list Event :=
  match content with
  | Some s => if s =? "" then [] else [EPrintAssistant s]
  | None => []
  end.

(** [tc.function.arguments or "{}"] *)
Definition arguments_or_default (arguments : option string) : string :=
  match arguments with
  | Some s => if s =? "" then "{}" else s
  | None => "{}"
  end.

Definition is_function (tc : ToolCall) : bool := tc_type tc =? "function".

(** The arguments handed to [call_tool]: [json.loads] under its [try]. *)
Definition parse_arguments `{Env} (tc : ToolCall) : PyVal :=
  match json_loads (arguments_or_default (fn_arguments (tc_function tc))) with
  | Ok args => args
  | Raise _ => PDict []
  end.

(** The second [try], after [call_tool] left the world [w] and the
    outcome [outcome]: the world it leaves and the content of the tool
    message it appends.  The result is normalized and printed inside the
    [try], so a failure of either is reported like a failure of the tool. *)
Definition tool_message_content `{Env} (w : world) (outcome : Exc PyVal) : world * string :=
  match (result <- outcome ;; tool_result_to_text result) with
  | Ok result_text =>
      let (w', printed) := print_result w result_text in
      (w', match printed with
           | Ok _ => result_text
           | Raise e => "Error: " ++ e
           end)
  | Raise e => (w, "Error: " ++ e)
  end.

(** One pass of the body of [for tc in msg.tool_calls]; [made] is
    [tool_calls_made]. *)
Definition execute_tool_call `{Env} (acc : State * bool) (tc : ToolCall) : State * bool :=
  let (st, made) := acc in
  if is_function tc then
    let name := fn_name (tc_function tc) in
    let args := parse_arguments tc in
    let (w1, outcome) := call_tool (st_world st) name args in
    let (w2, content) := tool_message_content w1 outcome in
    ({| st_world := w2;
        st_messages := st_messages st ++ [MTool (tc_id tc) content];
        st_events := st_events st ++ [EInvoke name args] |}, true)
  else (st, made).

(** [tool_calls_made = False; for tc in msg.tool_calls: ...] *)
Definition execute_tool_calls `{Env} (st : State) (tool_calls : list ToolCall) : State * bool :=
  fold_left execute_tool_call tool_calls (st, false).

(** [while iteration < max_iterations]; [remaining] is
    [max_iterations - iteration].  Returns the state and [iteration] at
    the exit of the loop. *)
Fixpoint while_loop `{Env} (openai_tools : list FunctionSpec) (remaining iteration : nat)
    (st : State) (msg : ChatMessage) : State * nat :=
  match remaining with
  | O => (st, iteration)
  | S remaining' =>
      let iteration := S iteration in
      let (st1, tool_calls_made) := execute_tool_calls st (msg_tool_calls msg) in
      if negb tool_calls_made then (st1, iteration)
      else
        let req := {| req_messages := st_messages st1 ++ [nudge];
                      req_tools := Some openai_tools |} in
        let (w2, msg') := complete (st_world st1) req in
        let st2 := {| st_world := w2;
                      st_messages := st_messages st1;
                      st_events := st_events st1 ++ ECompletion req :: print_assistant (msg_content msg') |} in
        match msg_tool_calls msg' with
        | [] => (st2, iteration)
        | _ :: _ =>
            while_loop openai_tools remaining' iteration
              {| st_world := st_world st2;
                 st_messages := st_messages st2 ++ [MAssistant (content_or_empty (msg_content msg')) (msg_tool_calls msg')];
                 st_events := st_events st2 |}
              msg'
        end
  end.

(** The part of [main] between [list_tools] and [finally], with the
    iteration bound as a parameter. *)
Definition agent_loop `{Env} (cap : nat) (w : world) (tools : list ToolDescriptor)
    (user_input : string) : State :=
  let openai_tools := build_openai_tools_schema tools in
  let messages := [MSystem system_prompt; MUser user_input] in
  let req := {| req_messages := messages; req_tools := Some openai_tools |} in
  let (w1, msg) := complete w req in
  let st := {| st_world := w1;
               st_messages := messages;
               st_events := ECompletion req :: print_assistant (msg_content msg) |} in
  match msg_tool_calls msg with
  | [] => st
  | _ :: _ =>
      let st0 := {| st_world := w1;
                    st_messages := messages ++ [MAssistant (content_or_empty (msg_content msg)) (msg_tool_calls msg)];
                    st_events := st_events st |} in
      let (st', iteration) := while_loop openai_tools cap 0 st0 msg in
      let final_req := {| req_messages := st_messages st'; req_tools := None |} in
      let (w', final) := complete (st_world st') final_req in
      {| st_world := w';
         st_messages := st_messages st';
         st_events := st_events st' ++ [EPrintCompleted iteration; ECompletion final_req;
                                        EPrintFinal (msg_content final)] |}
  end.

(** [main] from the first completion request on: the loop under
    [max_iterations]. *)
Definition main `{Env} : world -> list ToolDescriptor -> string -> State :=
  agent_loop max_iterations.

(** ** Observations on a run *)

Definition completion_of (e : Event) : list CompletionRequest :=
  match e with
  | ECompletion req => [req]
  | _ => []
  end.

(** The completion requests of a run, in the order they were issued. *)
Definition completions (events : list Event) : list CompletionRequest :=
  flat_map completion_of events.

Definition with_tools (req : CompletionRequest) : bool :=
  match req_tools req with
  | Some _ => true
  | None => false
  end.

Definition without_tools (req : CompletionRequest) : bool := negb (with_tools req).

Definition invocation_of (e : Event) : list (string * PyVal) :=
  match e with
  | EInvoke name args => [(name, args)]
  | _ => []
  end.

(** The calls of [call_tool], in the order they were made. *)
Definition invocations (events : list Event) : list (string * PyVal) :=
  flat_map invocation_of events.

(** The call a function-type entry stands for. *)
Definition invocation `{Env} (tc : ToolCall) : Event :=
  EInvoke (fn_name (tc_function tc)) (parse_arguments tc).

(** The tool-invocation requests of a batch: its function-type entries. *)
Definition requests (tool_calls : list ToolCall) : list ToolCall :=
  filter is_function tool_calls.

Definition answer (p : ToolCall * string) : Message :=
  MTool (tc_id (fst p)) (snd p).

(** Identifiers answered by the tool messages of a transcript. *)
Definition tool_ids (messages : list Message) : list string :=
  flat_map (fun m => match m with MTool id _ => [id] | _ => [] end) messages.

(** Identifiers requested by the assistant messages of a transcript. *)
Definition request_ids (messages : list Message) : list string :=
  flat_map (fun m => match m with
                     | MAssistant _ tcs => map tc_id (requests tcs)
                     | _ => []
                     end) messages.

(** Every request of the transcript has exactly one tool message. *)
Definition all_answered (messages : list Message) : bool :=
  forallb (fun id => Nat.eqb (count_occ string_dec (tool_ids messages) id) 1)
          (request_ids messages).

(** Every tool message answers exactly one request that comes before it;
    [seen] holds the identifiers requested so far. *)
Fixpoint all_requested_from (seen : list string) (messages : list Message) : bool :=
  match messages with
  | [] => true
  | MTool id _ :: rest =>
      Nat.eqb (count_occ string_dec seen id) 1 && all_requested_from seen rest
  | MAssistant _ tcs :: rest =>
      all_requested_from (seen ++ map tc_id (requests tcs)) rest
  | _ :: rest => all_requested_from seen rest
  end.

Definition all_requested (messages : list Message) : bool :=
  all_requested_from [] messages.

Definition transcript_consistent (messages : list Message) : bool :=
  all_requested messages && all_answered messages.

(** A well-formed content block of a tool result: text, or a block of
    another kind (image, audio, resource, ...) with its own fields. *)
Inductive ContentBlock : Type :=
| TextContent (text : string)
| OtherContent (kind : string) (fields : list (string * PyVal)).

Definition well_formed (block : ContentBlock) : Prop :=
  match block with
  | TextContent _ => True
  | OtherContent kind _ => kind <> "text"
  end.

(** The dictionary of a content block. *)
Definition block_dict (block : ContentBlock) : PyVal :=
  match block with
  | TextContent text => PDict [("type", PStr "text"); ("text", PStr text)]
  | OtherContent kind fields => PDict (("type", PStr kind) :: fields)
  end.

(** The texts of the text blocks, in block order. *)
Fixpoint block_texts (blocks : list ContentBlock) : list string :=
  match blocks with
  | [] => []
  | TextContent text :: rest => text :: block_texts rest
  | OtherContent _ _ :: rest => block_texts rest
  end.

(** A transcript in which every batch is followed by one tool message
    for each of its requests, in the order of the batch. *)
Inductive answered : list Message -> Prop :=
| answered_seed (system user : string) :
    answered [MSystem system; MUser user]
| answered_round (messages : list Message) (content : string)
    (tool_calls : list ToolCall) (contents : list string) :
    answered messages ->
    List.length contents = List.length (requests tool_calls) ->
    answered (messages ++ MAssistant content tool_calls
                          :: map answer (combine (requests tool_calls) contents)).

(** The transcript ends with an assistant message that carries requests:
    a batch that has not been executed. *)
Definition open_batch (messages : list Message) : bool :=
  match last messages nudge with
  | MAssistant _ tool_calls => existsb is_function tool_calls
  | _ => false
  end.

Definition non_null (v : PyVal) : Prop := v <> PNone.

(** The first completion request of a run. *)
Definition seeded_request (tools : list ToolDescriptor) (user_input : string) : CompletionRequest :=
  {| req_messages := [MSystem system_prompt; MUser user_input];
     req_tools := Some (build_openai_tools_schema tools) |}.

(** The request issued after a round that left the transcript [messages]. *)
Definition continuation_request (openai_tools : list FunctionSpec) (messages : list Message)
    : CompletionRequest :=
  {| req_messages := messages ++ [nudge]; req_tools := Some openai_tools |}.

(** The request issued after the loop. *)
Definition final_request (messages : list Message) : CompletionRequest :=
  {| req_messages := messages; req_tools := None |}.

(** The response to the first completion request. *)
Definition first_response `{Env} (w : world) (tools : list ToolDescriptor)
    (user_input : string) : ChatMessage :=
  snd (complete w (seeded_request tools user_input)).

(** The state in which the loop is entered. *)
Definition loop_entry `{Env} (w : world) (tools : list ToolDescriptor)
    (user_input : string) : State :=
  let req := seeded_request tools user_input in
  let msg := first_response w tools user_input in
  {| st_world := fst (complete w req);
     st_messages := req_messages req
       ++ [MAssistant (content_or_empty (msg_content msg)) (msg_tool_calls msg)];
     st_events := ECompletion req :: print_assistant (msg_content msg) |}.

(** The state and the iteration count with which the loop is left. *)
Definition loop_exit `{Env} (cap : nat) (w : world) (tools : list ToolDescriptor)
    (user_input : string) : State * nat :=
  while_loop (build_openai_tools_schema tools) cap 0
    (loop_entry w tools user_input) (first_response w tools user_input).

(** The model asks for at least one tool invocation on every completion. *)
Definition always_requests `{Env} : Prop :=
  forall (w : world) (req : CompletionRequest),
    existsb is_function (msg_tool_calls (snd (complete w req))) = true.

(** The requests [reqs] executed one after the other from the world
    [w], each call made in the world the one before it left: the world
    after the last one and the contents of the answers, in order. *)
Fixpoint call_in_order `{Env} (w : world) (reqs : list ToolCall) : world * list string :=
  match reqs with
  | [] => (w, [])
  | tc :: rest =>
      let (w1, outcome) := call_tool w (fn_name (tc_function tc)) (parse_arguments tc) in
      let (w2, content) := tool_message_content w1 outcome in
      let (w3, contents) := call_in_order w2 rest in
      (w3, content :: contents)
  end.

(** ** Stub environments *)

Definition nat_to_string (n : nat) : string := NilEmpty.string_of_uint (Nat.to_uint n).

Definition stub_json_loads (s : string) : Exc PyVal :=
  if s =? "{}" then Ok (PDict [])
  else if s =? "[]" then Ok (PList [])
  else Raise "Expecting value: line 1 column 1 (char 0)".

Definition stub_str (v : PyVal) : string :=
  match v with
  | PNone => "None"
  | PStr s => s
  | _ => "<result>"
  end.

Definition text_block (s : string) : PyVal :=
  PDict [("type", PStr "text"); ("text", PStr s)].

(** Two text blocks around a block of another kind. *)
Definition sample_blocks : list ContentBlock :=
  [TextContent "a"; OtherContent "image" [("mimeType", PStr "image/png")]; TextContent "b"].

(** A text block whose text is not a string. *)
Definition malformed_block : PyVal :=
  PDict [("type", PStr "text"); ("text", PInt 5)].

Definition text_result (s : string) : PyVal :=
  PDict [("content", PList [text_block s])].

Definition function_call (id name arguments : string) : ToolCall :=
  {| tc_id := id;
     tc_type := "function";
     tc_function := {| fn_name := name; fn_arguments := Some arguments |} |}.

Definition custom_call (id : string) : ToolCall :=
  {| tc_id := id;
     tc_type := "custom";
     tc_function := {| fn_name := "custom"; fn_arguments := None |} |}.

(** A model that asks for one more question on every completion, under a
    fresh identifier, and a session whose tools succeed. *)
Definition eager_env : Env :=
  {| world := unit;
     py_str := fun v => Ok (stub_str v);
     json_loads := stub_json_loads;
     print_result := fun w text => (w, Ok tt);
     complete := fun w req =>
       (w, {| msg_content := None;
              msg_tool_calls :=
                [function_call ("call_" ++ nat_to_string (List.length (req_messages req)))
                               "add_text_question" "{}"] |});
     call_tool := fun w name args => (w, Ok (text_result "done")) |}.

(** A model that replays a script, one response per completion request,
    and answers with plain text once the script is over; the session
    fails on the tool [fail] and succeeds on the others. *)
Definition scripted_env (script : list ChatMessage) : Env :=
  {| world := nat;
     py_str := fun v => Ok (stub_str v);
     json_loads := stub_json_loads;
     print_result := fun n text => (n, Ok tt);
     complete := fun n req =>
       (S n, nth n script {| msg_content := Some "All done."; msg_tool_calls := [] |});
     call_tool := fun n name args =>
       (n, if name =? "fail" then Raise "boom" else Ok (text_result name)) |}.

Definition asks (tool_calls : list ToolCall) : ChatMessage :=
  {| msg_content := None; msg_tool_calls := tool_calls |}.

(** Create the form, then add a question, then stop. *)
Definition form_script : list ChatMessage :=
  [asks [function_call "call_1" "create_form" "{}"];
   asks [function_call "call_2" "add_text_question" "{}"]].

(** A batch whose second tool raises. *)
Definition failing_script : list ChatMessage :=
  [asks [function_call "call_1" "create_form" "{}"; function_call "call_2" "fail" "{}"]].

(** A request whose arguments are not JSON. *)
Definition garbled_call : ToolCall := function_call "call_1" "create_form" "{title".

Definition garbled_script : list ChatMessage := [asks [garbled_call]].

(** A batch without a function-type entry. *)
Definition custom_script : list ChatMessage := [asks [custom_call "call_1"]].

Definition request_text : string := "Title: X | Questions: Q1".

(** Three requests, the second of which fails. *)
Definition sample_batch : list ToolCall :=
  [function_call "call_1" "create_form" "{}";
   function_call "call_2" "fail" "{}";
   function_call "call_3" "create_form" "{}"].

(** As [eager_env], with objects whose [__str__] raises. *)
Definition unprintable_env : Env :=
  {| world := unit;
     py_str := fun v => match v with
                        | PObj _ => Raise "__str__ failed"
                        | _ => Ok (stub_str v)
                        end;
     json_loads := stub_json_loads;
     print_result := fun w text => (w, Ok tt);
     complete := @complete eager_env;
     call_tool := @call_tool eager_env |}.

(** A library whose client object has no state and never raises. *)
Definition quiet_library : Library :=
  {| conn := unit;
     Client := fun _ => Ok tt;
     aenter := fun c => (c, Ok tt);
     aexit := fun c => (c, Ok tt) |}.

(** ** Further observations *)

(** [isinstance(v, str)] *)
Definition is_str (v : PyVal) : bool :=
  match v with
  | PStr _ => true
  | _ => false
  end.

(** The messages the loop appends: assistant and tool messages. *)
Definition appended_by_loop (m : Message) : bool :=
  match m with
  | MAssistant _ _ | MTool _ _ => true
  | MSystem _ | MUser _ => false
  end.

(** ** The rest of MCPClient and of main *)

(** The two operations of a connected FastMCP [Client] the program uses. *)
Class Remote `{Library} : Type := {
  client_list_tools : conn -> conn * Exc (list ToolDescriptor);
  client_call_tool : conn -> string -> PyVal -> conn * Exc PyVal
}.

(** The methods of [MCPClient] that go through the connection. *)
Module MCPClientCalls.

(** [list_tools] *)
Definition list_tools `{Remote} (self : MCPClient.t) : MCPClient.t * Exc (list ToolDescriptor) :=
  match MCPClient.client self with
  | None => (self, Raise "MCP client not started")
  | Some c =>
      let (c', r) := client_list_tools c in
      ({| MCPClient.server_path := MCPClient.server_path self;
          MCPClient.client := Some c' |}, r)
  end.

(** [call_tool] *)
Definition call_tool `{Remote} (self : MCPClient.t) (name : string) (arguments : PyVal)
    : MCPClient.t * Exc PyVal :=
  match MCPClient.client self with
  | None => (self, Raise "MCP client not started")
  | Some c =>
      let (c', r) := client_call_tool c name arguments in
      ({| MCPClient.server_path := MCPClient.server_path self;
          MCPClient.client := Some c' |}, r)
  end.

End MCPClientCalls.

(** What [main] reads from its host: the process environment, the file
    system, the console, and the builtins and the OpenAI client the loop
    uses. *)
Class Host : Type := {
  getenv : string -> option string;
  path_exists : string -> bool;
  (** what [input(...)] returns *)
  input_line : string;
  (** [str.strip] *)
  strip : string -> string;
  host_str : PyVal -> Exc string;
  host_print : string -> Exc unit;
  host_json_loads : string -> Exc PyVal;
  model : Type;
  create : model -> CompletionRequest -> model * ChatMessage
}.

(** The environment of the loop inside [main]: the OpenAI client of the
    host, and [mcp_client.call_tool] on the client object of the run. *)
Definition session_env `{Host} `{Remote} : Env :=
  {| world := model * MCPClient.t;
     py_str := host_str;
     json_loads := host_json_loads;
     print_result := fun w text => (w, host_print text);
     complete := fun w req =>
       let (m', msg) := create (fst w) req in ((m', snd w), msg);
     call_tool := fun w name args =>
       let (self', r) := MCPClientCalls.call_tool (snd w) name args in
       ((fst w, self'), r) |}.

Definition default_server_path : string :=
  "C:\Users\PARAMITA PAUL\VV_Courses\googleforms\google-forms-mcp\build\index.js".

(** [os.getenv("GOOGLE_FORMS_MCP_PATH", default)] *)
Definition configured_server_path `{Host} : string :=
  match getenv "GOOGLE_FORMS_MCP_PATH" with
  | Some path => path
  | None => default_server_path
  end.

(** [if not api_key] *)
Definition api_key_missing `{Host} : bool :=
  match getenv "OPENAI_API_KEY" with
  | Some key => key =? ""
  | None => true
  end.

(** [if not server_path or not os.path.exists(server_path)] *)
Definition server_missing `{Host} : bool :=
  (configured_server_path =? "") || negb (path_exists configured_server_path).

(** How [main] ends. *)
Inductive Exit : Type :=
| ExitRaised (e : string)
| ExitNoInput
| ExitDone.

(** The body of the [try] of [main]: what it raised if it did, the
    client object and the calls made on the library, and the state of
    the loop when the loop was reached. *)
Definition main_try `{Host} `{Remote} (m : model) (self : MCPClient.t) (user_input : string)
    : Exc unit * MCPClient.t * list ClientCall * option (@State session_env) :=
  let '(self1, started, calls) := MCPClient.start self in
  match started with
  | Raise e => (Raise e, self1, calls, None)
  | Ok _ =>
      let (self2, listed) := MCPClientCalls.list_tools self1 in
      match listed with
      | Raise e => (Raise e, self2, calls, None)
      | Ok tools =>
          let st := @main session_env (m, self2) tools user_input in
          (Ok tt, snd (@st_world session_env st), calls, Some st)
      end
  end.

(** [main] as [asyncio.run(main())] runs it, from the host's state and
    the state [m] of the model endpoint: how it ends, the calls made on
    the library's client, and the state of the loop when it was reached. *)
Definition run_main `{Host} `{Remote} (m : model)
    : Exit * list ClientCall * option (@State session_env) :=
  if api_key_missing then
    (ExitRaised "OPENAI_API_KEY missing in environment/.env", [], None)
  else if server_missing then
    (ExitRaised ("Google Forms MCP server not found at " ++ configured_server_path), [], None)
  else
    let user_input := strip input_line in
    if user_input =? "" then (ExitNoInput, [], None)
    else
      let '(body, self', calls, st) :=
        main_try m (MCPClient.init configured_server_path) user_input in
      let '(_, stopped, calls') := MCPClient.stop self' in
      (match stopped with
       | Raise e => ExitRaised e
       | Ok _ => match body with
                 | Raise e => ExitRaised e
                 | Ok _ => ExitDone
                 end
       end, (calls ++ calls')%list, st).

(** A connected client that lists one tool and whose tools succeed. *)
Definition quiet_remote : @Remote quiet_library :=
  {| client_list_tools := fun c => (c, Ok [ToolObject (PStr "create_form") PNone PNone]);
     client_call_tool := fun c name args => (c, Ok (text_result name)) |}.

(** A library whose connection cannot be entered. *)
Definition refusing_library : Library :=
  {| conn := unit;
     Client := fun _ => Ok tt;
     aenter := fun c => (c, Raise "connection refused");
     aexit := fun c => (c, Ok tt) |}.

Definition refusing_remote : @Remote refusing_library :=
  {| client_list_tools := fun c => (c, Raise "not connected");
     client_call_tool := fun c name args => (c, Raise "not connected") |}.

(** A host with the server in place, the API key [key], the console
    line [line], and a model that replays [form_script]. *)
Definition sample_host (key : option string) (line : string) : Host :=
  {| getenv := fun name =>
       if name =? "OPENAI_API_KEY" then key
       else if name =? "GOOGLE_FORMS_MCP_PATH" then Some "build/index.js"
       else None;
     path_exists := fun path => path =? "build/index.js";
     input_line := line;
     strip := fun s => if s =? "  " then "" else s;
     host_str := fun v => Ok (stub_str v);
     host_print := fun text => Ok tt;
     host_json_loads := stub_json_loads;
     model := nat;
     create := fun n req =>
       (S n, nth n form_script {| msg_content := Some "All done."; msg_tool_calls := [] |}) |}.

(** * Properties *)

Open Scope list_scope.

(** ** tool_result_to_text *)

Lemma str_join_strings (sep : string) (texts : list string) :
  str_join sep (map PStr texts) = Ok (String.concat sep texts).
Proof.
  induction texts as [| s [| s' rest] IH]; try reflexivity.
  change (str_join sep (map PStr (s :: s' :: rest)))
    with (r <- str_join sep (map PStr (s' :: rest)) ;; Ok (s ++ sep ++ r)%string).
  rewrite IH. reflexivity.
Qed.

Lemma tool_result_to_text_returns `{Env} (result : PyVal) :
  tool_result_to_text result = match tool_result_to_text_try result with
                               | Ok s => Ok s
                               | Raise _ => py_str result
                               end.
Proof.
  unfold tool_result_to_text, try_except.
  destruct (tool_result_to_text_try result); reflexivity.
Qed.

Lemma collect_texts_blocks (blocks : list ContentBlock) :
  Forall well_formed blocks ->
  collect_texts (map block_dict blocks) = map PStr (block_texts blocks).
Proof.
  induction 1 as [| block blocks Hwf _ IH]; [reflexivity |].
  destruct block as [text | kind fields].
  - simpl. f_equal. exact IH.
  - change (collect_texts (map block_dict (OtherContent kind fields :: blocks)))
      with (if (kind =? "text")%string
            then dict_get (("type", PStr kind) :: fields) "text" (PStr "")
                 :: collect_texts (map block_dict blocks)
            else collect_texts (map block_dict blocks)).
    destruct (String.eqb_spec kind "text") as [Heq | _]; [contradiction | exact IH].
Qed.

(** C5, as the program has it: [tool_result_to_text] returns a string,
    and does not raise, on every value that [str] can render; on a
    dictionary whose ["content"] is a list of well-formed content blocks
    it returns the texts of the text blocks, in block order, joined by
    newlines (and so on every list whose text-kind blocks carry
    strings), without calling [str]; and whenever the inspection raises,
    the result is that of [str(result)], carrying the exception when
    that raises. *)
Theorem tool_result_to_text_safe `{Env} (result : PyVal) :
  ((exists s, py_str result = Ok s) -> exists s, tool_result_to_text result = Ok s) /\
  (forall d blocks,
      result = PDict d ->
      dict_get d "content" (PList []) = PList (map block_dict blocks) ->
      Forall well_formed blocks ->
      tool_result_to_text result = Ok (String.concat newline (block_texts blocks))) /\
  (forall d blocks texts,
      result = PDict d ->
      dict_get d "content" (PList []) = PList blocks ->
      collect_texts blocks = map PStr texts ->
      tool_result_to_text result = Ok (String.concat newline texts)) /\
  (forall e,
      tool_result_to_text_try result = Raise e ->
      tool_result_to_text result = py_str result).
Proof.
  assert (Hjoin : forall d blocks texts,
             result = PDict d ->
             dict_get d "content" (PList []) = PList blocks ->
             collect_texts blocks = map PStr texts ->
             tool_result_to_text result = Ok (String.concat newline texts)).
  { intros d blocks texts -> Hcontent Htexts.
    rewrite tool_result_to_text_returns.
    unfold tool_result_to_text_try. simpl.
    rewrite Hcontent, Htexts, str_join_strings. reflexivity. }
  split; [| split; [| split]].
  - intros (s & Hstr). rewrite tool_result_to_text_returns.
    destruct (tool_result_to_text_try result) as [text | e];
      [exists text; reflexivity | exists s; exact Hstr].
  - intros d blocks Hresult Hcontent Hwf.
    apply (Hjoin d (map block_dict blocks)); [assumption | assumption |].
    apply collect_texts_blocks. exact Hwf.
  - exact Hjoin.
  - intros e Hraise.
    rewrite tool_result_to_text_returns, Hraise. reflexivity.
Qed.

Lemma tool_result_to_text_safe_witness :
  @tool_result_to_text eager_env (PDict [("content", PList (map block_dict sample_blocks))])
   = Ok (String.concat newline ["a"; "b"])
  /\ @tool_result_to_text eager_env (PDict [("content", PList [malformed_block])])
   = Ok "<result>"
  /\ (exists s, @tool_result_to_text unprintable_env PNone = Ok s).
Proof.
  split; [| split].
  - apply (proj1 (proj2 (@tool_result_to_text_safe eager_env _))
             [("content", PList (map block_dict sample_blocks))] sample_blocks);
      [reflexivity | reflexivity |].
    repeat constructor. discriminate.
  - apply (proj2 (proj2 (proj2 (@tool_result_to_text_safe eager_env
             (PDict [("content", PList [malformed_block])]))))
             "TypeError: sequence item: expected str instance").
    reflexivity.
  - apply (proj1 (@tool_result_to_text_safe unprintable_env PNone)).
    exists "None". reflexivity.
Defined.

(** C5, as stated, fails on an object that has no [get] method and
    whose [__str__] raises: the [AttributeError] of the inspection is
    caught, and the [str(result)] of the handler raises in its turn. *)
Lemma tool_result_to_text_raises :
  @tool_result_to_text_try unprintable_env (PObj "unprintable")
  = Raise "AttributeError: object has no attribute 'get'" /\
  @tool_result_to_text unprintable_env (PObj "unprintable") = Raise "__str__ failed" /\
  ~ exists s, @tool_result_to_text unprintable_env (PObj "unprintable") = Ok s.
Proof.
  split; [reflexivity |]. split; [reflexivity |].
  intros (s & Hs). discriminate Hs.
Qed.

(** ** build_openai_tools_schema *)

Lemma py_or_non_null (a b : PyVal) : non_null b -> non_null (py_or a b).
Proof.
  unfold py_or, non_null. intros Hb.
  destruct (truthy a) eqn:Ha; [| exact Hb].
  intros ->. discriminate Ha.
Qed.

(** The object branch applies the defaulting rules to every value. *)
Lemma tool_schema_object_non_null (name description inputSchema : PyVal) :
  non_null (fs_description (tool_schema (ToolObject name description inputSchema))) /\
  non_null (fs_parameters (tool_schema (ToolObject name description inputSchema))).
Proof.
  split; apply py_or_non_null; discriminate.
Qed.

Lemma dict_get_absent (d : list (string * PyVal)) (key : string) (default : PyVal) :
  ~ In key (map fst d) -> dict_get d key default = default.
Proof.
  induction d as [| [k v] d IH]; simpl; intros Hnot; [reflexivity |].
  destruct (String.eqb_spec k key) as [-> | _].
  - exfalso. apply Hnot. left. reflexivity.
  - apply IH. intros Hin. apply Hnot. right. exact Hin.
Qed.

(** The dictionary branch applies them to a key that is absent. *)
Lemma tool_schema_dict_defaults (d : list (string * PyVal)) :
  (~ In "description" (map fst d) ->
   fs_description (tool_schema (ToolDict d)) = PStr "") /\
  (~ In "inputSchema" (map fst d) ->
   fs_parameters (tool_schema (ToolDict d)) = empty_object_schema).
Proof.
  split; intros Habsent; simpl; apply dict_get_absent; exact Habsent.
Qed.

(** C6, at a dictionary that holds [None] under ["description"] and
    ["inputSchema"]: both come out as [None], where the object branch
    substitutes the defaults. *)
Theorem build_openai_tools_schema_dict_none :
  build_openai_tools_schema
    [ToolDict [("name", PStr "create_form"); ("description", PNone); ("inputSchema", PNone)]]
  = [{| fs_name := PStr "create_form"; fs_description := PNone; fs_parameters := PNone |}]
  /\
  build_openai_tools_schema [ToolObject (PStr "create_form") PNone PNone]
  = [{| fs_name := PStr "create_form"; fs_description := PStr "";
        fs_parameters := empty_object_schema |}].
Proof.
  split; reflexivity.
Qed.

(** ** One round of tool calls *)

Section Round.
Context `{E : Env}.

Lemma execute_tool_call_function (st : State) (made : bool) (tc : ToolCall) :
  is_function tc = true ->
  execute_tool_call (st, made) tc =
  (let r := call_tool (st_world st) (fn_name (tc_function tc)) (parse_arguments tc) in
   let m := tool_message_content (fst r) (snd r) in
   {| st_world := fst m;
      st_messages := st_messages st ++ [MTool (tc_id tc) (snd m)];
      st_events := st_events st ++ [invocation tc] |}, true).
Proof.
  intros Hf. unfold execute_tool_call. rewrite Hf.
  destruct (call_tool (st_world st) (fn_name (tc_function tc)) (parse_arguments tc))
    as [w1 outcome].
  simpl. destruct (tool_message_content w1 outcome). reflexivity.
Qed.

Lemma execute_tool_call_other (st : State) (made : bool) (tc : ToolCall) :
  is_function tc = false ->
  execute_tool_call (st, made) tc = (st, made).
Proof.
  intros Hf. unfold execute_tool_call. rewrite Hf. reflexivity.
Qed.

(** What the [for] loop leaves behind, from any starting point. *)
Lemma execute_fold (tool_calls : list ToolCall) :
  forall (st : State) (made : bool),
    let r := fold_left execute_tool_call tool_calls (st, made) in
    snd r = made || existsb is_function tool_calls /\
    st_events (fst r) = st_events st ++ map invocation (requests tool_calls) /\
    exists contents,
      List.length contents = List.length (requests tool_calls) /\
      st_messages (fst r)
      = st_messages st ++ map answer (combine (requests tool_calls) contents).
Proof.
  induction tool_calls as [| tc tcs IH]; intros st made.
  - simpl. rewrite orb_false_r, app_nil_r. repeat split.
    exists []. rewrite app_nil_r. split; reflexivity.
  - cbv zeta.
    change (fold_left execute_tool_call (tc :: tcs) (st, made))
      with (fold_left execute_tool_call tcs (execute_tool_call (st, made) tc)).
    assert (Hreqs : requests (tc :: tcs)
                    = if is_function tc then tc :: requests tcs else requests tcs)
      by reflexivity.
    rewrite Hreqs.
    change (existsb is_function (tc :: tcs))
      with (is_function tc || existsb is_function tcs).
    destruct (is_function tc) eqn:Hf.
    + rewrite (execute_tool_call_function st made tc Hf). cbv zeta.
      set (r := call_tool (st_world st) (fn_name (tc_function tc)) (parse_arguments tc)).
      match goal with |- context [fold_left _ _ (?s, true)] =>
        destruct (IH s true) as (Hmade & Hevents & contents & Hlen & Hmsgs) end.
      cbv zeta in Hmade, Hevents, Hmsgs.
      rewrite Hmade, Hevents, Hmsgs. simpl st_events. simpl st_messages.
      rewrite orb_true_r, <- !app_assoc. repeat split.
      exists (snd (tool_message_content (fst r) (snd r)) :: contents).
      split; [simpl; f_equal; exact Hlen | reflexivity].
    + rewrite (execute_tool_call_other st made tc Hf). apply IH.
Qed.

Lemma execute_tool_calls_made (st : State) (tool_calls : list ToolCall) :
  snd (execute_tool_calls st tool_calls) = existsb is_function tool_calls.
Proof.
  exact (proj1 (execute_fold tool_calls st false)).
Qed.

Lemma execute_tool_calls_events (st : State) (tool_calls : list ToolCall) :
  st_events (fst (execute_tool_calls st tool_calls))
  = st_events st ++ map invocation (requests tool_calls).
Proof.
  exact (proj1 (proj2 (execute_fold tool_calls st false))).
Qed.

Lemma execute_tool_calls_messages (st : State) (tool_calls : list ToolCall) :
  exists contents,
    List.length contents = List.length (requests tool_calls) /\
    st_messages (fst (execute_tool_calls st tool_calls))
    = st_messages st ++ map answer (combine (requests tool_calls) contents).
Proof.
  exact (proj2 (proj2 (execute_fold tool_calls st false))).
Qed.

Lemma invocations_app (a b : list Event) :
  invocations (a ++ b) = invocations a ++ invocations b.
Proof.
  unfold invocations. apply flat_map_app.
Qed.

Lemma invocations_round (reqs : list ToolCall) :
  invocations (map invocation reqs)
  = map (fun tc => (fn_name (tc_function tc), parse_arguments tc)) reqs.
Proof.
  induction reqs as [| tc reqs IH]; simpl; [reflexivity | f_equal; exact IH].
Qed.

Lemma call_in_order_length (reqs : list ToolCall) :
  forall w : world, List.length (snd (call_in_order w reqs)) = List.length reqs.
Proof.
  induction reqs as [| tc reqs IH]; intros w; [reflexivity |].
  simpl.
  destruct (call_tool w (fn_name (tc_function tc)) (parse_arguments tc)) as [w1 outcome].
  destruct (tool_message_content w1 outcome) as [w2 content].
  specialize (IH w2). destruct (call_in_order w2 reqs) as [w3 contents].
  simpl in *. f_equal. exact IH.
Qed.

(** The [for] loop is the function-type entries executed in order. *)
Lemma execute_fold_in_order (tool_calls : list ToolCall) :
  forall (st : State) (made : bool),
    fold_left execute_tool_call tool_calls (st, made)
    = (let r := call_in_order (st_world st) (requests tool_calls) in
       {| st_world := fst r;
          st_messages := st_messages st ++ map answer (combine (requests tool_calls) (snd r));
          st_events := st_events st ++ map invocation (requests tool_calls) |},
       made || existsb is_function tool_calls).
Proof.
  induction tool_calls as [| tc tcs IH]; intros st made.
  - destruct st. simpl. rewrite !app_nil_r, orb_false_r. reflexivity.
  - change (fold_left execute_tool_call (tc :: tcs) (st, made))
      with (fold_left execute_tool_call tcs (execute_tool_call (st, made) tc)).
    assert (Hreqs : requests (tc :: tcs)
                    = if is_function tc then tc :: requests tcs else requests tcs)
      by reflexivity.
    rewrite Hreqs.
    change (existsb is_function (tc :: tcs))
      with (is_function tc || existsb is_function tcs).
    destruct (is_function tc) eqn:Hf.
    + rewrite (execute_tool_call_function st made tc Hf), IH. cbv zeta. simpl.
      destruct (call_tool (st_world st) (fn_name (tc_function tc)) (parse_arguments tc))
        as [w1 outcome].
      simpl. destruct (tool_message_content w1 outcome) as [w2 content].
      simpl. destruct (call_in_order w2 (requests tcs)) as [w3 contents].
      simpl. rewrite orb_true_r, <- !app_assoc. reflexivity.
    + rewrite (execute_tool_call_other st made tc Hf). apply IH.
Qed.

(** C4, as the program has it: a round over a batch executes the
    function-type entries of the batch (all of it when it holds no other
    entry), once each, one after the other in the order of the batch:
    every call of [call_tool] is made with the entry's name and parsed
    arguments in the world the call before it left, and the tool
    messages appended to the transcript carry the outcomes of these
    calls under the entries' identifiers, in the same order. *)
Theorem tool_calls_in_order (st : State) (tool_calls : list ToolCall) :
  let reqs := requests tool_calls in
  let r := call_in_order (st_world st) reqs in
  execute_tool_calls st tool_calls
  = ({| st_world := fst r;
        st_messages := st_messages st ++ map answer (combine reqs (snd r));
        st_events := st_events st ++ map invocation reqs |},
     existsb is_function tool_calls) /\
  List.length (snd r) = List.length reqs /\
  tool_ids (map answer (combine reqs (snd r))) = map tc_id reqs /\
  invocations (map invocation reqs)
  = map (fun tc => (fn_name (tc_function tc), parse_arguments tc)) reqs /\
  (forallb is_function tool_calls = true -> reqs = tool_calls).
Proof.
  cbv zeta. split; [apply (execute_fold_in_order tool_calls st false) |].
  split; [apply call_in_order_length |].
  split; [| split; [apply invocations_round | apply forallb_filter_id]].
  generalize (call_in_order_length (requests tool_calls) (st_world st)).
  generalize (snd (call_in_order (st_world st) (requests tool_calls))).
  induction (requests tool_calls) as [| tc reqs IH]; intros [| c cs] Hlen;
    try discriminate; [reflexivity |].
  simpl. f_equal. apply IH. simpl in Hlen. congruence.
Qed.

End Round.

Lemma tool_calls_in_order_witness :
  requests sample_batch = sample_batch /\
  st_messages (fst (@execute_tool_calls (scripted_env failing_script)
                      (@loop_entry (scripted_env failing_script) 0 [] request_text)
                      sample_batch))
  = st_messages (@loop_entry (scripted_env failing_script) 0 [] request_text)
    ++ [MTool "call_1" "create_form"; MTool "call_2" "Error: boom";
        MTool "call_3" "create_form"].
Proof.
  split.
  - apply (proj2 (proj2 (proj2 (proj2 (@tool_calls_in_order (scripted_env failing_script)
             (@loop_entry (scripted_env failing_script) 0 [] request_text) sample_batch))))).
    reflexivity.
  - rewrite (proj1 (@tool_calls_in_order (scripted_env failing_script)
               (@loop_entry (scripted_env failing_script) 0 [] request_text) sample_batch)).
    reflexivity.
Defined.

(** C4, as stated, fails on a batch that holds an entry of another
    type: the entry is neither invoked nor answered, and the round
    calls and answers the function-type entry only. *)
Lemma custom_entry_not_invoked :
  let st := @loop_entry (scripted_env custom_script) 0 [] request_text in
  let batch := [custom_call "call_1"; function_call "call_2" "create_form" "{}"] in
  let st' := fst (@execute_tool_calls (scripted_env custom_script) st batch) in
  st_events st' = st_events st ++ [EInvoke "create_form" (PDict [])] /\
  st_messages st' = st_messages st ++ [MTool "call_2" "create_form"] /\
  List.length (invocations (st_events st')) - List.length (invocations (st_events st))
  <> List.length batch.
Proof.
  split; [reflexivity |]. split; [reflexivity |]. vm_compute. discriminate.
Qed.

(** ** The loop *)

Section Loop.
Context `{E : Env}.
Variable openai_tools : list FunctionSpec.

Lemma completions_app (a b : list Event) :
  completions (a ++ b) = completions a ++ completions b.
Proof.
  unfold completions. apply flat_map_app.
Qed.

Lemma completions_round (reqs : list ToolCall) :
  completions (map invocation reqs) = [].
Proof.
  induction reqs as [| tc reqs IH]; simpl; [reflexivity | exact IH].
Qed.

Lemma completions_print (content : option string) :
  completions (print_assistant content) = [].
Proof.
  destruct content as [s |]; simpl; [| reflexivity].
  destruct (s =? "")%string; reflexivity.
Qed.

(** A batch without a function-type entry leaves everything as it was. *)
Lemma execute_tool_calls_none (tool_calls : list ToolCall) :
  existsb is_function tool_calls = false ->
  forall (st : State) (made : bool),
    fold_left execute_tool_call tool_calls (st, made) = (st, made).
Proof.
  induction tool_calls as [| tc tcs IH]; intros Hnone st made; [reflexivity |].
  simpl in Hnone. apply orb_false_iff in Hnone. destruct Hnone as [Hf Hrest].
  simpl. fold (execute_tool_call (st, made) tc).
  rewrite (execute_tool_call_other st made tc Hf). apply IH. exact Hrest.
Qed.

(** The loop body when the batch has no function-type entry: [break]
    at [if not tool_calls_made]. *)
Lemma while_loop_break (remaining iteration : nat) (st : State) (msg : ChatMessage) :
  existsb is_function (msg_tool_calls msg) = false ->
  while_loop openai_tools (S remaining) iteration st msg = (st, S iteration).
Proof.
  intros Hnone. simpl. unfold execute_tool_calls.
  rewrite (execute_tool_calls_none _ Hnone). reflexivity.
Qed.

(** The loop body when the batch has one: the round, then the
    continuation request. *)
Lemma while_loop_step (remaining iteration : nat) (st : State) (msg : ChatMessage) :
  existsb is_function (msg_tool_calls msg) = true ->
  while_loop openai_tools (S remaining) iteration st msg =
  let st1 := fst (execute_tool_calls st (msg_tool_calls msg)) in
  let req := continuation_request openai_tools (st_messages st1) in
  let r := complete (st_world st1) req in
  let events := st_events st1 ++ ECompletion req :: print_assistant (msg_content (snd r)) in
  match msg_tool_calls (snd r) with
  | [] => ({| st_world := fst r; st_messages := st_messages st1; st_events := events |},
           S iteration)
  | _ :: _ =>
      while_loop openai_tools remaining (S iteration)
        {| st_world := fst r;
           st_messages := st_messages st1
             ++ [MAssistant (content_or_empty (msg_content (snd r))) (msg_tool_calls (snd r))];
           st_events := events |}
        (snd r)
  end.
Proof.
  intros Hsome. simpl.
  pose proof (execute_tool_calls_made st (msg_tool_calls msg)) as Hmade.
  destruct (execute_tool_calls st (msg_tool_calls msg)) as [st1 made].
  simpl in Hmade. rewrite Hsome in Hmade. subst made. simpl.
  unfold continuation_request.
  destruct (complete (st_world st1) _) as [w2 msg']. reflexivity.
Qed.

Lemma existsb_nonempty (tool_calls : list ToolCall) :
  existsb is_function tool_calls = true -> tool_calls <> [].
Proof.
  intros Hsome ->. discriminate Hsome.
Qed.

Lemma completions_turn (reqs : list ToolCall) (req : CompletionRequest)
    (content : option string) (rest : list Event) :
  completions (map invocation reqs ++ ECompletion req :: print_assistant content ++ rest)
  = req :: completions rest.
Proof.
  rewrite completions_app, completions_round.
  change (completions (ECompletion req :: print_assistant content ++ rest))
    with (req :: completions (print_assistant content ++ rest)).
  rewrite completions_app, completions_print. reflexivity.
Qed.

(** The events of the loop: a round is followed by one completion
    request with the tool schema, at most [remaining] times; exactly
    that often when the model never stops asking. *)
Lemma while_loop_trace (remaining : nat) :
  forall (iteration : nat) (st : State) (msg : ChatMessage),
  exists new,
    st_events (fst (while_loop openai_tools remaining iteration st msg)) = st_events st ++ new /\
    Forall (fun req => req_tools req = Some openai_tools) (completions new) /\
    List.length (completions new) <= remaining /\
    (always_requests ->
     existsb is_function (msg_tool_calls msg) = true ->
     List.length (completions new) = remaining /\
     snd (while_loop openai_tools remaining iteration st msg) = iteration + remaining).
Proof.
  induction remaining as [| n IH]; intros iteration st msg.
  - exists []. simpl. rewrite app_nil_r, Nat.add_0_r. repeat split; auto.
  - destruct (existsb is_function (msg_tool_calls msg)) eqn:Hsome.
    + rewrite (while_loop_step n iteration st msg Hsome). cbv zeta.
      set (st1 := fst (execute_tool_calls st (msg_tool_calls msg))).
      set (req := continuation_request openai_tools (st_messages st1)).
      set (r := complete (st_world st1) req).
      assert (Hst1 : st_events st1 = st_events st ++ map invocation (requests (msg_tool_calls msg)))
        by apply execute_tool_calls_events.
      destruct (msg_tool_calls (snd r)) as [| tc tcs] eqn:Hcalls.
      * exists (map invocation (requests (msg_tool_calls msg))
                ++ ECompletion req :: print_assistant (msg_content (snd r)) ++ []).
        rewrite completions_turn, app_nil_r.
        split; [simpl; rewrite Hst1, <- app_assoc; reflexivity |].
        split; [constructor; [reflexivity | constructor] |].
        split; [simpl; lia |].
        intros Halways _. exfalso.
        pose proof (Halways (st_world st1) req) as Hnext. fold r in Hnext.
        rewrite Hcalls in Hnext. discriminate Hnext.
      * match goal with |- context [while_loop _ n (S iteration) ?s (snd r)] =>
          destruct (IH (S iteration) s (snd r)) as (new & Hev & Hall & Hlen & Hexact) end.
        exists (map invocation (requests (msg_tool_calls msg))
                ++ ECompletion req :: print_assistant (msg_content (snd r)) ++ new).
        rewrite completions_turn.
        split; [rewrite Hev; simpl; rewrite Hst1, <- !app_assoc; reflexivity |].
        split; [constructor; [reflexivity | exact Hall] |].
        split; [simpl; lia |].
        intros Halways _.
        destruct (Hexact Halways (Halways (st_world st1) req)) as [Hn Hit].
        split; [simpl; f_equal; exact Hn | rewrite Hit; lia].
    + rewrite (while_loop_break n iteration st msg Hsome).
      exists []. simpl. rewrite app_nil_r.
      split; [reflexivity |]. split; [constructor |]. split; [lia |].
      intros _ Hcontra. discriminate Hcontra.
Qed.

End Loop.

(** After a round that called a tool, the next event is the continuation
    request over the transcript the round left. *)
Lemma while_loop_continues `{E : Env} (openai_tools : list FunctionSpec)
    (remaining iteration : nat) (st : State) (msg : ChatMessage) :
  existsb is_function (msg_tool_calls msg) = true ->
  let st1 := fst (execute_tool_calls st (msg_tool_calls msg)) in
  exists rest,
    st_events (fst (while_loop openai_tools (S remaining) iteration st msg))
    = st_events st1 ++ ECompletion (continuation_request openai_tools (st_messages st1)) :: rest.
Proof.
  intros Hsome. rewrite (while_loop_step openai_tools remaining iteration st msg Hsome).
  cbv zeta.
  set (st1 := fst (execute_tool_calls st (msg_tool_calls msg))).
  set (req := continuation_request openai_tools (st_messages st1)).
  set (r := complete (st_world st1) req).
  destruct (msg_tool_calls (snd r)) as [| tc tcs].
  - exists (print_assistant (msg_content (snd r))). reflexivity.
  - match goal with |- context [while_loop _ remaining (S iteration) ?s (snd r)] =>
      destruct (while_loop_trace openai_tools remaining (S iteration) s (snd r))
        as (new & Hev & _) end.
    exists (print_assistant (msg_content (snd r)) ++ new).
    rewrite Hev. simpl. rewrite <- app_assoc. reflexivity.
Qed.

(** ** A run *)

Section Run.
Context `{E : Env}.
Variables (cap : nat) (w : world) (tools : list ToolDescriptor) (user_input : string).

(** No tool call in the first response: nothing more happens. *)
Lemma agent_loop_direct :
  msg_tool_calls (first_response w tools user_input) = [] ->
  agent_loop cap w tools user_input =
  {| st_world := fst (complete w (seeded_request tools user_input));
     st_messages := req_messages (seeded_request tools user_input);
     st_events := ECompletion (seeded_request tools user_input)
                  :: print_assistant (msg_content (first_response w tools user_input)) |}.
Proof.
  unfold first_response, agent_loop, seeded_request.
  destruct (complete w _) as [w1 msg]. simpl. intros ->. reflexivity.
Qed.

(** Otherwise the loop runs and the final request follows it. *)
Lemma agent_loop_finalized :
  msg_tool_calls (first_response w tools user_input) <> [] ->
  agent_loop cap w tools user_input =
  let st' := fst (loop_exit cap w tools user_input) in
  let final := complete (st_world st') (final_request (st_messages st')) in
  {| st_world := fst final;
     st_messages := st_messages st';
     st_events := st_events st'
       ++ [EPrintCompleted (snd (loop_exit cap w tools user_input));
           ECompletion (final_request (st_messages st'));
           EPrintFinal (msg_content (snd final))] |}.
Proof.
  unfold loop_exit, loop_entry, first_response, agent_loop, seeded_request, final_request.
  destruct (complete w _) as [w1 msg]. simpl.
  destruct (msg_tool_calls msg) as [| tc tcs] eqn:Hcalls; [intros Hne; contradiction |].
  intros _.
  destruct (while_loop _ cap 0 _ msg) as [st' iteration]. simpl.
  destruct (complete (st_world st') _) as [w' final]. reflexivity.
Qed.

Lemma filter_with_tools (reqs : list CompletionRequest) (schema : list FunctionSpec) :
  Forall (fun req => req_tools req = Some schema) reqs ->
  filter with_tools reqs = reqs /\ filter without_tools reqs = [].
Proof.
  induction 1 as [| req reqs Hreq _ [IHw IHo]]; [split; reflexivity |].
  assert (Hw : with_tools req = true) by (unfold with_tools; rewrite Hreq; reflexivity).
  simpl. unfold without_tools in *. rewrite Hw, IHw, IHo. split; reflexivity.
Qed.

(** The completion requests of a run that entered the loop: the seeded
    one and the continuations, all with the tool schema, then the final
    one without. *)
Lemma agent_loop_completions :
  msg_tool_calls (first_response w tools user_input) <> [] ->
  exists continuations,
    completions (st_events (fst (loop_exit cap w tools user_input)))
    = seeded_request tools user_input :: continuations /\
    Forall (fun req => req_tools req = Some (build_openai_tools_schema tools)) continuations /\
    List.length continuations <= cap /\
    (always_requests ->
     List.length continuations = cap /\ snd (loop_exit cap w tools user_input) = cap).
Proof.
  intros Hcalls. unfold loop_exit.
  destruct (while_loop_trace (build_openai_tools_schema tools) cap 0
              (loop_entry w tools user_input) (first_response w tools user_input))
    as (new & Hev & Hall & Hlen & Hexact).
  exists (completions new). rewrite Hev, completions_app.
  split.
  - unfold loop_entry. simpl st_events.
    change (completions (ECompletion ?r :: ?l)) with (r :: completions l).
    rewrite completions_print. reflexivity.
  - split; [exact Hall |]. split; [exact Hlen |].
    intros Halways. apply (Hexact Halways). apply Halways.
Qed.

End Run.

(** ** The iteration cap *)

(** C1, as the program has it: when every response of the model carries
    a tool-invocation request, the loop runs exactly [cap] rounds and the
    run issues exactly [cap + 1] completion requests with the tool
    schema (the seeded one and one after each round), then the one final
    request without it, and halts. *)
Theorem iteration_cap `{E : Env} (cap : nat) (w : world) (tools : list ToolDescriptor)
    (user_input : string) :
  always_requests ->
  let events := st_events (agent_loop cap w tools user_input) in
  let st' := fst (loop_exit cap w tools user_input) in
  let final := final_request (st_messages st') in
  List.length (filter with_tools (completions events)) = S cap /\
  List.length (filter without_tools (completions events)) = 1 /\
  snd (loop_exit cap w tools user_input) = cap /\
  events = st_events st'
           ++ [EPrintCompleted cap; ECompletion final;
               EPrintFinal (msg_content (snd (complete (st_world st') final)))].
Proof.
  intros Halways.
  assert (Hcalls : msg_tool_calls (first_response w tools user_input) <> [])
    by (apply existsb_nonempty, Halways).
  cbv zeta. rewrite (agent_loop_finalized cap w tools user_input Hcalls). cbv zeta.
  destruct (agent_loop_completions cap w tools user_input Hcalls)
    as (continuations & Hcompl & Hall & _ & Hexact).
  destruct (Hexact Halways) as [Hlen Hiter].
  set (st' := fst (loop_exit cap w tools user_input)) in *.
  simpl st_events. rewrite completions_app, Hcompl, !filter_app.
  assert (Hschema : Forall (fun req => req_tools req = Some (build_openai_tools_schema tools))
                           (seeded_request tools user_input :: continuations))
    by (constructor; [reflexivity | exact Hall]).
  destruct (filter_with_tools _ _ Hschema) as [Hwith Hwithout].
  rewrite Hwith, Hwithout. simpl. rewrite app_nil_r, Hlen.
  split; [lia |]. split; [reflexivity |]. split; [exact Hiter |].
  rewrite Hiter. reflexivity.
Qed.

Lemma iteration_cap_witness :
  @always_requests eager_env /\
  List.length (filter with_tools
                 (completions (st_events (@agent_loop eager_env 3 tt [] request_text))))
  = 4.
Proof.
  split.
  - intros w req. reflexivity.
  - apply (proj1 (@iteration_cap eager_env 3 tt [] request_text
                    (fun w req => eq_refl))).
Defined.

(** C1, as stated, fails: under the default cap of 10 a model that
    always asks for a tool receives 11 completion requests with the tool
    schema. *)
Lemma iteration_cap_exceeded :
  @always_requests eager_env /\
  List.length (filter with_tools
                 (completions (st_events (@main eager_env tt [] request_text))))
  = S max_iterations /\
  List.length (filter with_tools
                 (completions (st_events (@main eager_env tt [] request_text))))
  <> max_iterations.
Proof.
  split; [intros w req; reflexivity |].
  split; [vm_compute; reflexivity | vm_compute; discriminate].
Qed.

(** ** Finalization *)

Lemma invocations_print (content : option string) :
  invocations (print_assistant content) = [].
Proof.
  destruct content as [s |]; simpl; [| reflexivity].
  destruct (s =? "")%string; reflexivity.
Qed.

(** C3: a run whose first response carries tool calls (every run that
    executed a round is one) ends with exactly one completion request
    without the tool schema, issued after the loop over the transcript
    the loop left, and prints its text as the final response; a run
    whose first response carries none issues that one request only and
    prints nothing but that response's text. *)
Theorem finalization_call `{E : Env} (cap : nat) (w : world) (tools : list ToolDescriptor)
    (user_input : string) :
  let first := first_response w tools user_input in
  let run := agent_loop cap w tools user_input in
  (msg_tool_calls first = [] ->
   st_events run
   = ECompletion (seeded_request tools user_input) :: print_assistant (msg_content first) /\
   completions (st_events run) = [seeded_request tools user_input]) /\
  (msg_tool_calls first <> [] ->
   let st' := fst (loop_exit cap w tools user_input) in
   let final := final_request (st_messages st') in
   st_events run
   = st_events st'
     ++ [EPrintCompleted (snd (loop_exit cap w tools user_input)); ECompletion final;
         EPrintFinal (msg_content (snd (complete (st_world st') final)))] /\
   Forall (fun req => with_tools req = true) (completions (st_events st')) /\
   filter without_tools (completions (st_events run)) = [final]) /\
  (invocations (st_events run) <> [] -> msg_tool_calls first <> []).
Proof.
  cbv zeta. split; [| split].
  - intros Hnone. rewrite (agent_loop_direct cap w tools user_input Hnone).
    simpl st_events. split; [reflexivity |].
    change (completions (ECompletion ?r :: ?l)) with (r :: completions l).
    rewrite completions_print. reflexivity.
  - intros Hcalls. rewrite (agent_loop_finalized cap w tools user_input Hcalls). cbv zeta.
    destruct (agent_loop_completions cap w tools user_input Hcalls)
      as (continuations & Hcompl & Hall & _).
    simpl st_events. split; [reflexivity |].
    assert (Hschema : Forall (fun req => req_tools req = Some (build_openai_tools_schema tools))
                             (seeded_request tools user_input :: continuations))
      by (constructor; [reflexivity | exact Hall]).
    split.
    + rewrite Hcompl. eapply Forall_impl; [| exact Hschema].
      intros req Hreq. unfold with_tools. rewrite Hreq. reflexivity.
    + rewrite completions_app, Hcompl, filter_app.
      rewrite (proj2 (filter_with_tools _ _ Hschema)). reflexivity.
  - intros Hinvoked Hnone. apply Hinvoked.
    rewrite (agent_loop_direct cap w tools user_input Hnone). simpl st_events.
    change (invocations (ECompletion ?r :: ?l)) with (invocations l).
    apply invocations_print.
Qed.

Lemma finalization_call_witness :
  completions (st_events (@agent_loop (scripted_env []) 10 0 [] request_text))
  = [seeded_request [] request_text]
  /\
  filter without_tools
    (completions (st_events (@agent_loop (scripted_env form_script) 10 0 [] request_text)))
  = [final_request
       (st_messages (fst (@loop_exit (scripted_env form_script) 10 0 [] request_text)))].
Proof.
  split.
  - apply (proj1 (@finalization_call (scripted_env []) 10 0 [] request_text)).
    reflexivity.
  - apply (proj1 (proj2 (@finalization_call (scripted_env form_script) 10 0 [] request_text))).
    discriminate.
Defined.

(** ** Entries that are not function calls *)

(** C10: an entry whose type is not ["function"] is neither invoked nor
    answered; a batch of such entries ends the loop without a
    continuation request; and when the first response is such a batch,
    the assistant message that carries it is in the transcript of the
    final request, the only one issued after the seeded one. *)
Theorem non_function_entries_skipped `{E : Env} :
  (forall (st : State) (made : bool) (tc : ToolCall),
      is_function tc = false ->
      execute_tool_call (st, made) tc = (st, made)) /\
  (forall (openai_tools : list FunctionSpec) (remaining iteration : nat)
          (st : State) (msg : ChatMessage),
      existsb is_function (msg_tool_calls msg) = false ->
      while_loop openai_tools (S remaining) iteration st msg = (st, S iteration)) /\
  (forall (cap : nat) (w : world) (tools : list ToolDescriptor) (user_input : string),
      let first := first_response w tools user_input in
      let run := agent_loop cap w tools user_input in
      msg_tool_calls first <> [] ->
      existsb is_function (msg_tool_calls first) = false ->
      st_messages run
      = [MSystem system_prompt; MUser user_input;
         MAssistant (content_or_empty (msg_content first)) (msg_tool_calls first)] /\
      completions (st_events run)
      = [seeded_request tools user_input; final_request (st_messages run)] /\
      invocations (st_events run) = []).
Proof.
  split; [exact execute_tool_call_other |].
  split; [exact while_loop_break |].
  intros cap w tools user_input first run Hcalls Hnone. subst first run.
  rewrite (agent_loop_finalized cap w tools user_input Hcalls). cbv zeta.
  assert (Hexit : fst (loop_exit cap w tools user_input) = loop_entry w tools user_input).
  { unfold loop_exit. destruct cap as [| cap]; [reflexivity |].
    rewrite (while_loop_break _ cap 0 _ _ Hnone). reflexivity. }
  rewrite Hexit. simpl st_messages. simpl st_events.
  split; [reflexivity |].
  change (completions (ECompletion ?r :: ?l)) with (r :: completions l).
  change (invocations (ECompletion ?r :: ?l)) with (invocations l).
  rewrite completions_app, invocations_app, completions_print, invocations_print.
  split; reflexivity.
Qed.

Lemma non_function_entries_skipped_witness :
  completions (st_events (@agent_loop (scripted_env custom_script) 10 0 [] request_text))
  = [seeded_request [] request_text;
     final_request [MSystem system_prompt; MUser request_text;
                    MAssistant "" [custom_call "call_1"]]].
Proof.
  apply (proj2 (proj2 (@non_function_entries_skipped (scripted_env custom_script)))
           10 0 [] request_text);
    [discriminate | reflexivity].
Defined.

(** ** Failures inside a round *)

(** C7: when the arguments of a request do not parse, [call_tool] is
    called with the tool name and the empty dictionary, the request is
    answered like any other, and the round is followed by the next
    completion request. *)
Theorem parse_failure_recovered `{E : Env} (openai_tools : list FunctionSpec)
    (remaining iteration : nat) (st : State) (msg : ChatMessage) (tc : ToolCall) (e : string) :
  In tc (msg_tool_calls msg) ->
  is_function tc = true ->
  json_loads (arguments_or_default (fn_arguments (tc_function tc))) = Raise e ->
  parse_arguments tc = PDict [] /\
  (forall (st0 : State) (made : bool),
      execute_tool_call (st0, made) tc
      = (let r := call_tool (st_world st0) (fn_name (tc_function tc)) (PDict []) in
         let m := tool_message_content (fst r) (snd r) in
         {| st_world := fst m;
            st_messages := st_messages st0 ++ [MTool (tc_id tc) (snd m)];
            st_events := st_events st0 ++ [EInvoke (fn_name (tc_function tc)) (PDict [])] |},
         true)) /\
  let st1 := fst (execute_tool_calls st (msg_tool_calls msg)) in
  In (EInvoke (fn_name (tc_function tc)) (PDict [])) (st_events st1) /\
  exists rest,
    st_events (fst (while_loop openai_tools (S remaining) iteration st msg))
    = st_events st1 ++ ECompletion (continuation_request openai_tools (st_messages st1)) :: rest.
Proof.
  intros Hin Hf Hparse.
  assert (Hargs : parse_arguments tc = PDict [])
    by (unfold parse_arguments; rewrite Hparse; reflexivity).
  split; [exact Hargs |]. split.
  - intros st0 made. rewrite (execute_tool_call_function st0 made tc Hf).
    unfold invocation. rewrite Hargs. reflexivity.
  - cbv zeta. split.
    + rewrite execute_tool_calls_events. apply in_or_app. right.
      rewrite <- Hargs. apply (in_map invocation). apply filter_In. split; assumption.
    + apply while_loop_continues. apply existsb_exists. exists tc. split; assumption.
Qed.

Lemma parse_failure_recovered_witness :
  In (EInvoke "create_form" (PDict []))
     (st_events (fst (@execute_tool_calls (scripted_env garbled_script)
                        (@loop_entry (scripted_env garbled_script) 0 [] request_text)
                        [garbled_call]))).
Proof.
  apply (proj1 (proj2 (proj2 (@parse_failure_recovered (scripted_env garbled_script) [] 9 0
           (@loop_entry (scripted_env garbled_script) 0 [] request_text)
           (asks [garbled_call]) garbled_call
           "Expecting value: line 1 column 1 (char 0)"
           (or_introl eq_refl) eq_refl eq_refl)))).
Defined.



(** ** Consistency of the transcript *)

Lemma tool_ids_app (a b : list Message) : tool_ids (a ++ b) = tool_ids a ++ tool_ids b.
Proof.
  unfold tool_ids. apply flat_map_app.
Qed.

Lemma request_ids_app (a b : list Message) :
  request_ids (a ++ b) = request_ids a ++ request_ids b.
Proof.
  unfold request_ids. apply flat_map_app.
Qed.

Lemma tool_ids_answers (reqs : list ToolCall) :
  forall contents : list string,
    List.length contents = List.length reqs ->
    tool_ids (map answer (combine reqs contents)) = map tc_id reqs.
Proof.
  induction reqs as [| tc reqs IH]; intros [| c cs] Hlen; try discriminate; [reflexivity |].
  simpl. f_equal. apply IH. simpl in Hlen. congruence.
Qed.

Lemma request_ids_answers (reqs : list ToolCall) (contents : list string) :
  request_ids (map answer (combine reqs contents)) = [].
Proof.
  revert contents. induction reqs as [| tc reqs IH]; intros [| c cs]; try reflexivity.
  simpl. apply IH.
Qed.

Lemma request_ids_round (messages : list Message) (content : string)
    (tool_calls : list ToolCall) (contents : list string) :
  request_ids (messages ++ MAssistant content tool_calls
                        :: map answer (combine (requests tool_calls) contents))
  = request_ids messages ++ map tc_id (requests tool_calls).
Proof.
  rewrite request_ids_app. f_equal.
  change (request_ids (MAssistant content tool_calls :: ?l))
    with (map tc_id (requests tool_calls) ++ request_ids l).
  rewrite request_ids_answers. apply app_nil_r.
Qed.

(** In an answered transcript the tool messages follow the requests one
    for one. *)
Lemma answered_ids (messages : list Message) :
  answered messages -> tool_ids messages = request_ids messages.
Proof.
  induction 1 as [system user | messages content tcs contents _ IH Hlen]; [reflexivity |].
  rewrite request_ids_round, tool_ids_app, IH. f_equal.
  change (tool_ids (MAssistant content tcs :: ?l)) with (tool_ids l).
  apply tool_ids_answers. exact Hlen.
Qed.

Lemma all_requested_from_app (a b : list Message) :
  forall seen : list string,
    all_requested_from seen (a ++ b)
    = all_requested_from seen a && all_requested_from (seen ++ request_ids a) b.
Proof.
  induction a as [| m a IH]; intros seen.
  - simpl. rewrite app_nil_r. reflexivity.
  - destruct m as [s | u | c tcs | id c]; simpl.
    + apply IH.
    + apply IH.
    + rewrite IH, <- app_assoc. reflexivity.
    + rewrite IH, andb_assoc. reflexivity.
Qed.

Lemma all_requested_from_answers (seen : list string) (reqs : list ToolCall) :
  (forall tc, In tc reqs -> count_occ string_dec seen (tc_id tc) = 1) ->
  forall contents : list string,
    all_requested_from seen (map answer (combine reqs contents)) = true.
Proof.
  induction reqs as [| tc reqs IH]; intros Hseen [| c cs]; try reflexivity.
  simpl. rewrite (Hseen tc (or_introl eq_refl)). simpl.
  apply IH. intros tc' Hin. apply Hseen. right. exact Hin.
Qed.

(** With pairwise distinct identifiers, an answered transcript is
    consistent. *)
Lemma answered_consistent (messages : list Message) :
  answered messages ->
  NoDup (request_ids messages) ->
  transcript_consistent messages = true.
Proof.
  intros Hanswered Hnodup. unfold transcript_consistent. apply andb_true_iff. split.
  - unfold all_requested. induction Hanswered
      as [system user | messages content tcs contents _ IH Hlen]; [reflexivity |].
    rewrite request_ids_round in Hnodup.
    rewrite all_requested_from_app, IH by (eapply NoDup_app_remove_r; exact Hnodup).
    simpl. apply all_requested_from_answers. intros tc Hin.
    apply (proj1 (NoDup_count_occ' string_dec _) Hnodup).
    apply in_or_app. right. apply in_map. exact Hin.
  - unfold all_answered. apply forallb_forall. intros id Hin.
    rewrite (answered_ids messages Hanswered).
    rewrite (proj1 (NoDup_count_occ' string_dec _) Hnodup id Hin). reflexivity.
Qed.

(** The nudge neither asks nor answers. *)
Lemma consistent_nudge (messages : list Message) :
  transcript_consistent messages = true ->
  transcript_consistent (messages ++ [nudge]) = true.
Proof.
  unfold transcript_consistent, all_requested, all_answered.
  rewrite all_requested_from_app, tool_ids_app, request_ids_app.
  simpl. rewrite !app_nil_r, andb_true_r. intros H. exact H.
Qed.

Lemma NoDup_prefix_ids (a b : list Message) :
  NoDup (request_ids (a ++ b)) -> NoDup (request_ids a).
Proof.
  rewrite request_ids_app. apply NoDup_app_remove_r.
Qed.


Lemma requests_none (tool_calls : list ToolCall) :
  existsb is_function tool_calls = false -> requests tool_calls = [].
Proof.
  induction tool_calls as [| tc tcs IH]; [reflexivity |].
  simpl. intros Hnone. apply orb_false_iff in Hnone. destruct Hnone as [Hf Hrest].
  unfold requests. simpl. rewrite Hf. apply IH. exact Hrest.
Qed.

(** The loop keeps the transcript answered: entered with an answered
    transcript followed by the assistant message of the current batch,
    it sends every continuation request over an answered transcript
    followed by the nudge, and it leaves an answered transcript unless
    the bound ends it, when the last batch is left open. *)
Lemma while_loop_answered `{E : Env} (openai_tools : list FunctionSpec) (remaining : nat) :
  forall (iteration : nat) (st : State) (msg : ChatMessage)
         (messages : list Message) (content : string),
    answered messages ->
    st_messages st = messages ++ [MAssistant content (msg_tool_calls msg)] ->
    let result := while_loop openai_tools remaining iteration st msg in
    exists new suffix,
      st_events (fst result) = st_events st ++ new /\
      st_messages (fst result) = st_messages st ++ suffix /\
      Forall (fun req => exists before rest,
                  answered before /\
                  req_messages req = before ++ [nudge] /\
                  st_messages (fst result) = before ++ rest)
             (completions new) /\
      (answered (st_messages (fst result)) \/
       (snd result = iteration + remaining /\
        exists before c tcs,
          answered before /\ st_messages (fst result) = before ++ [MAssistant c tcs])).
Proof.
  induction remaining as [| n IH]; intros iteration st msg messages content Hans Hst.
  - exists [], []. simpl. rewrite !app_nil_r. repeat split; [constructor |].
    right. split; [lia |]. exists messages, content, (msg_tool_calls msg). split; assumption.
  - destruct (existsb is_function (msg_tool_calls msg)) eqn:Hsome.
    + cbv zeta. rewrite (while_loop_step openai_tools n iteration st msg Hsome). cbv zeta.
      set (st1 := fst (execute_tool_calls st (msg_tool_calls msg))).
      set (req := continuation_request openai_tools (st_messages st1)).
      set (r := complete (st_world st1) req).
      assert (Hev1 : st_events st1 = st_events st ++ map invocation (requests (msg_tool_calls msg)))
        by apply execute_tool_calls_events.
      destruct (execute_tool_calls_messages st (msg_tool_calls msg))
        as (contents & Hlen & Hmsgs1).
      fold st1 in Hmsgs1.
      assert (Hans1 : answered (st_messages st1)).
      { rewrite Hmsgs1, Hst, <- app_assoc. apply answered_round; assumption. }
      destruct (msg_tool_calls (snd r)) as [| tc tcs] eqn:Hcalls.
      * exists (map invocation (requests (msg_tool_calls msg))
                ++ ECompletion req :: print_assistant (msg_content (snd r)) ++ []),
               (map answer (combine (requests (msg_tool_calls msg)) contents)).
        rewrite completions_turn, app_nil_r. simpl fst. simpl st_events. simpl st_messages.
        split; [rewrite Hev1, <- app_assoc; reflexivity |].
        split; [exact Hmsgs1 |].
        split; [| left; exact Hans1].
        constructor; [| constructor].
        exists (st_messages st1), []. rewrite app_nil_r. repeat split. exact Hans1.
      * match goal with |- context [while_loop _ n (S iteration) ?s (snd r)] =>
          destruct (IH (S iteration) s (snd r) (st_messages st1)
                       (content_or_empty (msg_content (snd r))) Hans1)
            as (new & suffix & Hev & Hmsgs & Hall & Hexit);
            [rewrite Hcalls; reflexivity |]
        end.
        cbv zeta in Hev, Hmsgs, Hall, Hexit. simpl st_messages in Hmsgs. simpl st_events in Hev.
        exists (map invocation (requests (msg_tool_calls msg))
                ++ ECompletion req :: print_assistant (msg_content (snd r)) ++ new),
               (map answer (combine (requests (msg_tool_calls msg)) contents)
                ++ MAssistant (content_or_empty (msg_content (snd r))) (tc :: tcs) :: suffix).
        rewrite completions_turn.
        split; [rewrite Hev, Hev1, <- !app_assoc; reflexivity |].
        split; [rewrite Hmsgs, Hmsgs1, <- !app_assoc; reflexivity |].
        split.
        -- constructor; [| exact Hall].
           exists (st_messages st1),
                  (MAssistant (content_or_empty (msg_content (snd r))) (tc :: tcs) :: suffix).
           split; [exact Hans1 |]. split; [reflexivity |].
           rewrite Hmsgs, <- app_assoc. reflexivity.
        -- destruct Hexit as [Hleft | [Hiter Hopen]]; [left; exact Hleft |].
           right. split; [rewrite Hiter; lia | exact Hopen].
    + cbv zeta. rewrite (while_loop_break openai_tools n iteration st msg Hsome).
      exists [], []. simpl. rewrite !app_nil_r. repeat split; [constructor |].
      left. rewrite Hst.
      pose proof (answered_round messages content (msg_tool_calls msg) [] Hans) as Hround.
      rewrite (requests_none _ Hsome) in Hround. apply Hround. reflexivity.
Qed.

Lemma last_app_cons (a b : list Message) (m d : Message) :
  last (a ++ m :: b) d = last (m :: b) d.
Proof.
  induction a as [| x a IH]; [reflexivity |].
  change ((x :: a) ++ m :: b) with (x :: (a ++ m :: b)).
  destruct (a ++ m :: b) eqn:Hcons; [destruct a; discriminate Hcons |].
  exact IH.
Qed.

Lemma last_answer (pairs : list (ToolCall * string)) :
  forall (p : ToolCall * string) (d : Message),
  exists q, last (map answer (p :: pairs)) d = answer q.
Proof.
  induction pairs as [| p' pairs IH]; intros p d; [exists p; reflexivity |].
  destruct (IH p' d) as (q & Hq). exists q. exact Hq.
Qed.

Lemma requests_empty (tool_calls : list ToolCall) :
  requests tool_calls = [] -> existsb is_function tool_calls = false.
Proof.
  induction tool_calls as [| tc tcs IH]; [reflexivity |].
  unfold requests. simpl. destruct (is_function tc); [discriminate | exact IH].
Qed.

(** An answered transcript has no open batch. *)
Lemma answered_closed (messages : list Message) :
  answered messages -> open_batch messages = false.
Proof.
  destruct 1 as [system user | messages content tcs contents _ Hlen]; [reflexivity |].
  unfold open_batch. rewrite last_app_cons.
  destruct (requests tcs) as [| tc reqs] eqn:Hreqs; destruct contents as [| c cs];
    try discriminate Hlen.
  - simpl. apply requests_empty. exact Hreqs.
  - change (combine (tc :: reqs) (c :: cs)) with ((tc, c) :: combine reqs cs).
    destruct (last_answer (combine reqs cs) (tc, c) nudge) as (q & Hq).
    change (last (MAssistant content tcs :: map answer ((tc, c) :: combine reqs cs)) nudge)
      with (last (map answer ((tc, c) :: combine reqs cs)) nudge).
    rewrite Hq. reflexivity.
Qed.

(** C2, as the program has it: with the identifiers of the run pairwise
    distinct, every completion request that carries the tool schema (the
    seeded one and every continuation) is issued over a transcript in
    which every tool message answers exactly one earlier request and
    every request has exactly one tool message; so is the final request
    unless the transcript ends with a batch that was not executed; and
    that is not the case when the loop ended before the bound. *)
Theorem consistent_before_cap `{E : Env} (cap : nat) (w : world) (tools : list ToolDescriptor)
    (user_input : string) :
  let run := agent_loop cap w tools user_input in
  NoDup (request_ids (st_messages run)) ->
  Forall (fun req => with_tools req = true -> transcript_consistent (req_messages req) = true)
         (completions (st_events run)) /\
  (open_batch (st_messages run) = false ->
   Forall (fun req => transcript_consistent (req_messages req) = true)
          (completions (st_events run))) /\
  (snd (loop_exit cap w tools user_input) < cap -> open_batch (st_messages run) = false).
Proof.
  cbv zeta.
  destruct (msg_tool_calls (first_response w tools user_input)) as [| tc tcs] eqn:Hfirst.
  - rewrite (agent_loop_direct cap w tools user_input Hfirst). simpl st_events.
    change (completions (ECompletion ?r :: ?l)) with (r :: completions l).
    rewrite completions_print. intros _.
    split; [| split]; [| intros _ | intros _; reflexivity];
      (constructor; [| constructor]); reflexivity.
  - assert (Hcalls : msg_tool_calls (first_response w tools user_input) <> [])
      by (rewrite Hfirst; discriminate).
    rewrite (agent_loop_finalized cap w tools user_input Hcalls). cbv zeta.
    simpl st_messages. simpl st_events.
    destruct (while_loop_answered (build_openai_tools_schema tools) cap 0
                (loop_entry w tools user_input) (first_response w tools user_input)
                [MSystem system_prompt; MUser user_input]
                (content_or_empty (msg_content (first_response w tools user_input)))
                (answered_seed system_prompt user_input) eq_refl)
      as (new & suffix & Hev & _ & Hall & Hexit).
    fold (loop_exit cap w tools user_input) in Hev, Hall, Hexit.
    set (st' := fst (loop_exit cap w tools user_input)) in *.
    intros Hnodup.
    assert (Hturns : Forall (fun req => transcript_consistent (req_messages req) = true)
                            (completions (st_events st'))).
    { rewrite Hev, completions_app. apply Forall_app. split.
      - unfold loop_entry. simpl st_events.
        change (completions (ECompletion ?r :: ?l)) with (r :: completions l).
        rewrite completions_print. constructor; [reflexivity | constructor].
      - eapply Forall_impl; [| exact Hall].
        intros req (before & rest & Hans & Hreq & Hmsgs).
        rewrite Hreq. apply consistent_nudge. apply answered_consistent; [exact Hans |].
        apply (NoDup_prefix_ids before rest). rewrite <- Hmsgs. exact Hnodup. }
    rewrite completions_app. split; [| split].
    + apply Forall_app. split.
      * eapply Forall_impl; [| exact Hturns]. intros req Hreq _. exact Hreq.
      * constructor; [| constructor]. intros Hwith. discriminate Hwith.
    + intros Hclosed. apply Forall_app. split; [exact Hturns |].
      constructor; [| constructor].
      change (transcript_consistent (st_messages st') = true).
      destruct Hexit as [Hans | [_ (before & c & calls & Hans & Hmsgs)]];
        [apply answered_consistent; assumption |].
      apply answered_consistent; [| exact Hnodup].
      rewrite Hmsgs in Hclosed |- *.
      unfold open_batch in Hclosed. rewrite last_last in Hclosed.
      pose proof (answered_round before c calls [] Hans) as Hround.
      rewrite (requests_none _ Hclosed) in Hround. apply Hround. reflexivity.
    + intros Hearly.
      destruct Hexit as [Hans | [Hiter _]]; [| simpl in Hiter; lia].
      apply answered_closed. exact Hans.
Qed.

Lemma consistent_before_cap_witness :
  Forall (fun req => transcript_consistent (req_messages req) = true)
         (completions (st_events (@agent_loop (scripted_env form_script) 10 0 [] request_text))).
Proof.
  apply (proj1 (proj2 (@consistent_before_cap (scripted_env form_script) 10 0 [] request_text
                         ltac:(vm_compute; repeat constructor; simpl; intuition discriminate)))).
  reflexivity.
Defined.

(** C2, as stated, fails at a model that never stops asking, under the
    default cap: the identifiers are pairwise distinct and the eleven
    completion requests with the tool schema have consistent
    transcripts, but the transcript of the final request ends with an
    assistant message carrying a request that no tool message answers. *)
Lemma unanswered_request_after_cap :
  let run := @main eager_env tt [] request_text in
  NoDup (request_ids (st_messages run)) /\
  map (fun req => (with_tools req, transcript_consistent (req_messages req)))
      (completions (st_events run))
  = repeat (true, true) 11 ++ [(false, false)] /\
  last (st_messages run) nudge
  = MAssistant "" [function_call "call_23" "add_text_question" "{}"] /\
  count_occ string_dec (tool_ids (st_messages run)) "call_23" = 0.
Proof.
  split; [| split; [| split]].
  - vm_compute. repeat constructor; simpl; intuition discriminate.
  - vm_compute. reflexivity.
  - vm_compute. reflexivity.
  - vm_compute. reflexivity.
Qed.

(** ** MCPClient.stop *)

(** X20: [stop] does nothing when no client object was assigned, which
    is the case before [start] and after a [start] whose [Client(...)]
    raised; once [start] has assigned one, which it does before the
    connection is entered and whatever the outcome of entering, every
    call of [stop] calls [__aexit__] on it once, leaves the attribute
    set, so that a second [stop] calls [__aexit__] again, and raises
    when that call raises. *)
Theorem stop_forwards_aexit `{L : Library} (self : MCPClient.t) :
  (MCPClient.client self = None ->
   MCPClient.stop self = (self, Ok tt, [])) /\
  (forall c : conn,
      MCPClient.client self = Some c ->
      MCPClient.stop self
      = ({| MCPClient.server_path := MCPClient.server_path self;
            MCPClient.client := Some (fst (aexit c)) |},
         snd (aexit c), [CallAExit]) /\
      MCPClient.stop (fst (fst (MCPClient.stop self)))
      = ({| MCPClient.server_path := MCPClient.server_path self;
            MCPClient.client := Some (fst (aexit (fst (aexit c)))) |},
         snd (aexit (fst (aexit c))), [CallAExit])) /\
  (forall c : conn,
      Client (MCPClient.server_path self) = Ok c ->
      MCPClient.start self
      = ({| MCPClient.server_path := MCPClient.server_path self;
            MCPClient.client := Some (fst (aenter c)) |},
         snd (aenter c), [CallAEnter])) /\
  (forall e : string,
      Client (MCPClient.server_path self) = Raise e ->
      MCPClient.start self = (self, Raise e, [])).
Proof.
  split; [| split; [| split]].
  - intros Hnone. unfold MCPClient.stop. rewrite Hnone. reflexivity.
  - intros c Hsome. unfold MCPClient.stop. rewrite Hsome.
    destruct (aexit c) as [c1 r1]. simpl. destruct (aexit c1). split; reflexivity.
  - intros c Hnew. unfold MCPClient.start. rewrite Hnew.
    destruct (aenter c). reflexivity.
  - intros e Hnew. unfold MCPClient.start. rewrite Hnew. reflexivity.
Qed.

Lemma stop_forwards_aexit_witness :
  @MCPClient.stop quiet_library (MCPClient.init "build/index.js")
  = (MCPClient.init "build/index.js", Ok tt, [])
  /\
  snd (@MCPClient.stop refusing_library
         (fst (fst (@MCPClient.start refusing_library (MCPClient.init "build/index.js")))))
  = [CallAExit].
Proof.
  split.
  - apply (proj1 (@stop_forwards_aexit quiet_library (MCPClient.init "build/index.js"))).
    reflexivity.
  - rewrite (proj1 (proj1 (proj2 (@stop_forwards_aexit refusing_library
               (fst (fst (@MCPClient.start refusing_library (MCPClient.init "build/index.js"))))))
               tt eq_refl)).
    reflexivity.
Defined.

(** * Further properties *)

(** ** tool_result_to_text on other shapes *)

(** X1: a result that is not a dictionary, and a dictionary whose
    ["content"] is not a list, are rendered whole by [str]: the outcome
    is that of [str(result)]. *)
Theorem tool_result_to_text_fallback `{Env} (result : PyVal) :
  ((forall d, result <> PDict d) \/
   (exists d, result = PDict d /\
              forall blocks, dict_get d "content" (PList []) <> PList blocks)) ->
  tool_result_to_text result = py_str result.
Proof.
  intros [Hother | (d & -> & Hcontent)]; rewrite tool_result_to_text_returns.
  - destruct result; try reflexivity. exfalso. apply (Hother d). reflexivity.
  - unfold tool_result_to_text_try. simpl.
    destruct (dict_get d "content" (PList [])) as [| | | | blocks | |] eqn:Hget;
      try (destruct (py_str (PDict d)); reflexivity).
    exfalso. apply (Hcontent blocks). reflexivity.
Qed.

Lemma tool_result_to_text_fallback_witness :
  @tool_result_to_text eager_env (PStr "form created") = Ok "form created"
  /\ @tool_result_to_text eager_env (PDict [("content", PNone)]) = Ok "<result>".
Proof.
  split.
  - apply (@tool_result_to_text_fallback eager_env). left. discriminate.
  - apply (@tool_result_to_text_fallback eager_env). right.
    exists [("content", PNone)]. split; [reflexivity | discriminate].
Defined.

Lemma collect_texts_none (blocks : list PyVal) :
  forallb (fun block => negb (is_text_block block)) blocks = true ->
  collect_texts blocks = [].
Proof.
  induction blocks as [| block blocks IH]; [reflexivity |].
  simpl. intros Hall. apply andb_true_iff in Hall. destruct Hall as [Hblock Hrest].
  apply negb_true_iff in Hblock. rewrite Hblock. apply IH. exact Hrest.
Qed.

(** X2: a dictionary without the key ["content"], and one whose content
    list holds no text block, give the empty string, not the rendering
    of the result. *)
Theorem tool_result_to_text_empty `{Env} (d : list (string * PyVal)) :
  (~ In "content" (map fst d) \/
   exists blocks, dict_get d "content" (PList []) = PList blocks /\
                  forallb (fun block => negb (is_text_block block)) blocks = true) ->
  tool_result_to_text (PDict d) = Ok "".
Proof.
  intros [Habsent | (blocks & Hcontent & Hnone)]; rewrite tool_result_to_text_returns;
    unfold tool_result_to_text_try; simpl.
  - rewrite (dict_get_absent d "content" (PList []) Habsent). reflexivity.
  - rewrite Hcontent, (collect_texts_none blocks Hnone). reflexivity.
Qed.

Lemma tool_result_to_text_empty_witness :
  @tool_result_to_text eager_env (PDict [("isError", PBool false)]) = Ok ""
  /\ @tool_result_to_text eager_env
       (PDict [("content", PList [PDict [("type", PStr "image")]; PInt 3])]) = Ok "".
Proof.
  split.
  - apply (@tool_result_to_text_empty eager_env). left.
    simpl. intros [Heq | []]. discriminate Heq.
  - apply (@tool_result_to_text_empty eager_env). right.
    exists [PDict [("type", PStr "image")]; PInt 3]. split; reflexivity.
Defined.

Lemma str_join_raises (sep : string) (items : list PyVal) :
  existsb (fun v => negb (is_str v)) items = true ->
  exists e, str_join sep items = Raise e.
Proof.
  induction items as [| v items IH]; [discriminate |].
  intros Hbad. destruct v as [| b | z | s | l | d | tag];
    try (destruct items; eexists; reflexivity).
  simpl in Hbad. destruct (IH Hbad) as (e & He).
  destruct items as [| v' items']; [discriminate Hbad |].
  exists e.
  change (str_join sep (PStr s :: v' :: items'))
    with (r <- str_join sep (v' :: items') ;; Ok (s ++ sep ++ r)%string).
  rewrite He. reflexivity.
Qed.

Lemma collect_texts_in (blocks : list PyVal) (block : PyVal) :
  In block blocks -> is_text_block block = true ->
  In (block_text block) (collect_texts blocks).
Proof.
  induction blocks as [| b blocks IH]; intros Hin Htext; [contradiction |].
  simpl. destruct Hin as [-> | Hin].
  - rewrite Htext. left. reflexivity.
  - destruct (is_text_block b); [right |]; apply IH; assumption.
Qed.

(** X3: one text block whose text is not a string is enough for the
    whole result to fall back to its rendering by [str]: the texts of
    the other blocks are not returned. *)
Theorem tool_result_to_text_poisoned `{Env} (d : list (string * PyVal))
    (blocks : list PyVal) (block : PyVal) :
  dict_get d "content" (PList []) = PList blocks ->
  In block blocks ->
  is_text_block block = true ->
  is_str (block_text block) = false ->
  tool_result_to_text (PDict d) = py_str (PDict d).
Proof.
  intros Hcontent Hin Htext Hbad.
  destruct (str_join_raises newline (collect_texts blocks)) as (e & He).
  { apply existsb_exists. exists (block_text block).
    split; [apply collect_texts_in; assumption | rewrite Hbad; reflexivity]. }
  rewrite tool_result_to_text_returns. unfold tool_result_to_text_try. simpl.
  rewrite Hcontent, He. reflexivity.
Qed.

Lemma tool_result_to_text_poisoned_witness :
  @tool_result_to_text eager_env
    (PDict [("content", PList [text_block "a"; malformed_block])]) = Ok "<result>".
Proof.
  apply (@tool_result_to_text_poisoned eager_env
           [("content", PList [text_block "a"; malformed_block])]
           [text_block "a"; malformed_block] malformed_block);
    [reflexivity | right; left; reflexivity | reflexivity | reflexivity].
Defined.

(** ** build_openai_tools_schema when no dictionary holds None *)

Lemma dict_get_non_null (d : list (string * PyVal)) (key : string) (default : PyVal) :
  ~ In (key, PNone) d -> non_null default -> non_null (dict_get d key default).
Proof.
  induction d as [| [k v] d IH]; simpl; intros Hnot Hdefault; [exact Hdefault |].
  destruct (String.eqb_spec k key) as [-> | _].
  - intros ->. apply Hnot. left. reflexivity.
  - apply IH; [| exact Hdefault]. intros Hin. apply Hnot. right. exact Hin.
Qed.

(** X4: when no dictionary-shaped descriptor binds ["description"] or
    ["inputSchema"] to [None], every function specification of the
    schema has a description and parameters that are not [None],
    whatever the object-shaped descriptors hold. *)
Theorem schema_non_null (tools : list ToolDescriptor) :
  (forall d, In (ToolDict d) tools ->
             ~ In ("description", PNone) d /\ ~ In ("inputSchema", PNone) d) ->
  Forall (fun spec => non_null (fs_description spec) /\ non_null (fs_parameters spec))
         (build_openai_tools_schema tools).
Proof.
  intros Hdicts. unfold build_openai_tools_schema. apply Forall_map.
  apply Forall_forall. intros [name description inputSchema | d] Hin.
  - apply tool_schema_object_non_null.
  - destruct (Hdicts d Hin) as [Hdesc Hschema].
    split; simpl; apply dict_get_non_null; try assumption; discriminate.
Qed.

Lemma schema_non_null_witness :
  Forall (fun spec => non_null (fs_description spec) /\ non_null (fs_parameters spec))
         (build_openai_tools_schema
            [ToolObject (PStr "create_form") PNone PNone;
             ToolDict [("name", PStr "add_text_question"); ("description", PStr "")]]).
Proof.
  apply schema_non_null. intros d [Hobj | [Hdict | []]]; [discriminate Hobj |].
  injection Hdict as <-. split; simpl; intuition discriminate.
Defined.

(** ** Bounds of a run *)

Lemma while_loop_count `{E : Env} (openai_tools : list FunctionSpec) (remaining : nat) :
  forall (iteration : nat) (st : State) (msg : ChatMessage),
    let result := while_loop openai_tools remaining iteration st msg in
    exists k,
      List.length (completions (st_events (fst result)))
      = List.length (completions (st_events st)) + k /\
      iteration + k <= snd result /\
      snd result <= iteration + k + 1 /\
      snd result <= iteration + remaining.
Proof.
  induction remaining as [| n IH]; intros iteration st msg.
  - exists 0. simpl. repeat split; lia.
  - destruct (existsb is_function (msg_tool_calls msg)) eqn:Hsome.
    + cbv zeta. rewrite (while_loop_step openai_tools n iteration st msg Hsome). cbv zeta.
      set (st1 := fst (execute_tool_calls st (msg_tool_calls msg))).
      set (req := continuation_request openai_tools (st_messages st1)).
      set (r := complete (st_world st1) req).
      assert (Hst1 : completions (st_events st1) = completions (st_events st)).
      { unfold st1. rewrite execute_tool_calls_events, completions_app, completions_round.
        apply app_nil_r. }
      destruct (msg_tool_calls (snd r)) as [| tc tcs].
      * exists 1. simpl fst. simpl snd. simpl st_events.
        rewrite completions_app, Hst1.
        change (completions (ECompletion req :: ?l)) with (req :: completions l).
        rewrite completions_print, length_app. simpl. repeat split; lia.
      * match goal with |- context [while_loop _ n (S iteration) ?s (snd r)] =>
          destruct (IH (S iteration) s (snd r)) as (k & Hlen & Hlow & Hhigh & Hcap) end.
        cbv zeta in Hlen, Hlow, Hhigh, Hcap. simpl st_events in Hlen.
        rewrite completions_app, Hst1 in Hlen.
        change (completions (ECompletion req :: ?l)) with (req :: completions l) in Hlen.
        rewrite completions_print, length_app in Hlen. simpl in Hlen.
        exists (S k). repeat split; lia.
    + cbv zeta. rewrite (while_loop_break openai_tools n iteration st msg Hsome).
      exists 0. simpl. repeat split; lia.
Qed.

(** The completion requests of any run: the seeded one, the
    continuations, and the final one when the loop was entered. *)
Lemma agent_loop_requests `{E : Env} (cap : nat) (w : world) (tools : list ToolDescriptor)
    (user_input : string) :
  let run := agent_loop cap w tools user_input in
  exists continuations finals,
    completions (st_events run) = seeded_request tools user_input :: continuations ++ finals /\
    Forall (fun req => req_tools req = Some (build_openai_tools_schema tools)) continuations /\
    List.length continuations <= cap /\
    (finals = [] \/ finals = [final_request (st_messages run)]).
Proof.
  cbv zeta.
  destruct (msg_tool_calls (first_response w tools user_input)) as [| tc tcs] eqn:Hfirst.
  - exists [], []. rewrite (agent_loop_direct cap w tools user_input Hfirst). simpl st_events.
    change (completions (ECompletion ?r :: ?l)) with (r :: completions l).
    rewrite completions_print.
    split; [reflexivity |]. split; [constructor |]. split; [simpl; lia | left; reflexivity].
  - assert (Hcalls : msg_tool_calls (first_response w tools user_input) <> [])
      by (rewrite Hfirst; discriminate).
    destruct (agent_loop_completions cap w tools user_input Hcalls)
      as (continuations & Hcompl & Hall & Hlen & _).
    exists continuations, [final_request (st_messages (agent_loop cap w tools user_input))].
    rewrite (agent_loop_finalized cap w tools user_input Hcalls). cbv zeta.
    simpl st_events. simpl st_messages. rewrite completions_app, Hcompl.
    split; [reflexivity |]. split; [exact Hall |]. split; [exact Hlen | right; reflexivity].
Qed.

(** X5: whatever the model answers, a run issues at most [cap + 1]
    completion requests with the tool schema and at most one without,
    and the loop is left after at most [cap] iterations. *)
Theorem requests_bounded `{E : Env} (cap : nat) (w : world) (tools : list ToolDescriptor)
    (user_input : string) :
  let reqs := completions (st_events (agent_loop cap w tools user_input)) in
  List.length (filter with_tools reqs) <= S cap /\
  List.length (filter without_tools reqs) <= 1 /\
  snd (loop_exit cap w tools user_input) <= cap.
Proof.
  cbv zeta.
  destruct (agent_loop_requests cap w tools user_input)
    as (continuations & finals & Hreqs & Hall & Hlen & Hfinals).
  assert (Hschema : Forall (fun req => req_tools req = Some (build_openai_tools_schema tools))
                           (seeded_request tools user_input :: continuations))
    by (constructor; [reflexivity | exact Hall]).
  destruct (filter_with_tools _ _ Hschema) as [Hwith Hwithout].
  rewrite Hreqs.
  change (seeded_request tools user_input :: continuations ++ finals)
    with ((seeded_request tools user_input :: continuations) ++ finals).
  rewrite !filter_app, Hwith, Hwithout, !length_app.
  split; [| split].
  - destruct Hfinals as [-> | ->]; simpl; lia.
  - destruct Hfinals as [-> | ->]; simpl; lia.
  - unfold loop_exit.
    destruct (while_loop_count (build_openai_tools_schema tools) cap 0
                (loop_entry w tools user_input) (first_response w tools user_input))
      as (k & _ & _ & _ & Hcap).
    exact Hcap.
Qed.

(** X6: the completion requests of a run are, in order, one or more
    requests that each carry the schema built from the tools listed at
    the start of the run, the seeded request first, followed by at most
    one request without a schema, the final one. *)
Theorem schema_built_once `{E : Env} (cap : nat) (w : world) (tools : list ToolDescriptor)
    (user_input : string) :
  let run := agent_loop cap w tools user_input in
  exists continuations finals,
    completions (st_events run)
    = (seeded_request tools user_input :: continuations) ++ finals /\
    Forall (fun req => req_tools req = Some (build_openai_tools_schema tools))
           (seeded_request tools user_input :: continuations) /\
    Forall (fun req => req_tools req = None) finals /\
    (finals = [] \/ finals = [final_request (st_messages run)]).
Proof.
  cbv zeta.
  destruct (agent_loop_requests cap w tools user_input)
    as (continuations & finals & Hreqs & Hall & _ & Hfinals).
  cbv zeta in Hreqs, Hfinals.
  exists continuations, finals.
  split; [exact Hreqs |].
  split; [constructor; [reflexivity | exact Hall] |].
  split; [| exact Hfinals].
  destruct Hfinals as [-> | ->]; [constructor |].
  constructor; [reflexivity | constructor].
Qed.

(** X7: when the loop was entered, the iteration count it reports is
    the number of continuation requests, or one more (when the last
    iteration found no function-type entry to execute). *)
Theorem iterations_reported `{E : Env} (cap : nat) (w : world) (tools : list ToolDescriptor)
    (user_input : string) :
  msg_tool_calls (first_response w tools user_input) <> [] ->
  let reqs := completions (st_events (agent_loop cap w tools user_input)) in
  let continuations := List.length (filter with_tools reqs) - 1 in
  In (EPrintCompleted (snd (loop_exit cap w tools user_input)))
     (st_events (agent_loop cap w tools user_input)) /\
  continuations <= snd (loop_exit cap w tools user_input) /\
  snd (loop_exit cap w tools user_input) <= continuations + 1.
Proof.
  intros Hcalls. cbv zeta.
  rewrite (agent_loop_finalized cap w tools user_input Hcalls). cbv zeta. simpl st_events.
  split; [apply in_or_app; right; left; reflexivity |].
  destruct (agent_loop_completions cap w tools user_input Hcalls)
    as (continuations & Hcompl & Hall & _ & _).
  assert (Hschema : Forall (fun req => req_tools req = Some (build_openai_tools_schema tools))
                           (seeded_request tools user_input :: continuations))
    by (constructor; [reflexivity | exact Hall]).
  rewrite completions_app, Hcompl, filter_app, (proj1 (filter_with_tools _ _ Hschema)).
  simpl. rewrite app_nil_r.
  unfold loop_exit in *.
  destruct (while_loop_count (build_openai_tools_schema tools) cap 0
              (loop_entry w tools user_input) (first_response w tools user_input))
    as (k & Hk & Hlow & Hhigh & _).
  cbv zeta in Hk. rewrite Hcompl in Hk.
  unfold loop_entry in Hk. simpl st_events in Hk.
  change (completions (ECompletion ?r :: ?l)) with (r :: completions l) in Hk.
  rewrite completions_print in Hk. simpl in Hk.
  assert (Hn : List.length continuations = k) by lia.
  rewrite Hn. lia.
Qed.

Lemma iterations_reported_witness :
  In (EPrintCompleted 2)
     (st_events (@agent_loop (scripted_env form_script) 10 0 [] request_text)).
Proof.
  exact (proj1 (@iterations_reported (scripted_env form_script) 10 0 [] request_text
                  ltac:(discriminate))).
Defined.

(** ** The stored transcript *)

Lemma forallb_answers (reqs : list ToolCall) (contents : list string) :
  forallb appended_by_loop (map answer (combine reqs contents)) = true.
Proof.
  revert contents. induction reqs as [| tc reqs IH]; intros [| c cs]; try reflexivity.
  simpl. apply IH.
Qed.

(** The loop only appends, and only assistant and tool messages; every
    tool call leaves one tool message. *)
Lemma while_loop_appends `{E : Env} (openai_tools : list FunctionSpec) (remaining : nat) :
  forall (iteration : nat) (st : State) (msg : ChatMessage),
    let result := while_loop openai_tools remaining iteration st msg in
    exists suffix k,
      st_messages (fst result) = st_messages st ++ suffix /\
      forallb appended_by_loop suffix = true /\
      List.length (tool_ids (st_messages (fst result)))
      = List.length (tool_ids (st_messages st)) + k /\
      List.length (invocations (st_events (fst result)))
      = List.length (invocations (st_events st)) + k.
Proof.
  induction remaining as [| n IH]; intros iteration st msg.
  - exists [], 0. simpl. rewrite app_nil_r. repeat split; lia.
  - destruct (existsb is_function (msg_tool_calls msg)) eqn:Hsome.
    + cbv zeta. rewrite (while_loop_step openai_tools n iteration st msg Hsome). cbv zeta.
      set (st1 := fst (execute_tool_calls st (msg_tool_calls msg))).
      set (req := continuation_request openai_tools (st_messages st1)).
      set (r := complete (st_world st1) req).
      destruct (execute_tool_calls_messages st (msg_tool_calls msg))
        as (contents & Hlen & Hmsgs1).
      fold st1 in Hmsgs1.
      assert (Hev1 : st_events st1 = st_events st ++ map invocation (requests (msg_tool_calls msg)))
        by apply execute_tool_calls_events.
      assert (Htools1 : List.length (tool_ids (st_messages st1))
                        = List.length (tool_ids (st_messages st))
                          + List.length (requests (msg_tool_calls msg))).
      { rewrite Hmsgs1, tool_ids_app, length_app, (tool_ids_answers _ _ Hlen), length_map.
        reflexivity. }
      assert (Hinv1 : List.length (invocations (st_events st1))
                      = List.length (invocations (st_events st))
                        + List.length (requests (msg_tool_calls msg))).
      { rewrite Hev1, invocations_app, length_app, invocations_round, length_map.
        reflexivity. }
      assert (Hturn : forall rest,
                 invocations (st_events st1
                              ++ ECompletion req :: print_assistant (msg_content (snd r)) ++ rest)
                 = invocations (st_events st1) ++ invocations rest).
      { intros rest. rewrite invocations_app. f_equal.
        change (invocations (ECompletion req :: ?l)) with (invocations l).
        rewrite invocations_app, invocations_print. reflexivity. }
      destruct (msg_tool_calls (snd r)) as [| tc tcs] eqn:Hcalls.
      * exists (map answer (combine (requests (msg_tool_calls msg)) contents)),
               (List.length (requests (msg_tool_calls msg))).
        simpl fst. simpl st_messages. simpl st_events.
        split; [exact Hmsgs1 |]. split; [apply forallb_answers |].
        split; [exact Htools1 |].
        rewrite <- (app_nil_r (print_assistant (msg_content (snd r)))), Hturn.
        rewrite app_nil_r. exact Hinv1.
      * match goal with |- context [while_loop _ n (S iteration) ?s (snd r)] =>
          destruct (IH (S iteration) s (snd r)) as (suffix & k & Hmsgs & Hkind & Htools & Hinv)
        end.
        cbv zeta in Hmsgs, Htools, Hinv.
        simpl st_messages in Hmsgs, Htools. simpl st_events in Hinv.
        exists (map answer (combine (requests (msg_tool_calls msg)) contents)
                ++ MAssistant (content_or_empty (msg_content (snd r))) (tc :: tcs) :: suffix),
               (List.length (requests (msg_tool_calls msg)) + k).
        split; [rewrite Hmsgs, Hmsgs1, <- !app_assoc; reflexivity |].
        split; [rewrite forallb_app, forallb_answers; exact Hkind |].
        split.
        -- rewrite Htools, tool_ids_app. simpl. rewrite app_nil_r. lia.
        -- rewrite Hinv.
           rewrite <- (app_nil_r (print_assistant (msg_content (snd r)))), Hturn.
           rewrite app_nil_r. lia.
    + cbv zeta. rewrite (while_loop_break openai_tools n iteration st msg Hsome).
      exists [], 0. simpl. rewrite app_nil_r. repeat split; lia.
Qed.

(** X8: the stored transcript is the system prompt and the user's
    request followed by assistant and tool messages only: no other user
    message, the nudge included, is ever stored. *)
Theorem transcript_shape `{E : Env} (cap : nat) (w : world) (tools : list ToolDescriptor)
    (user_input : string) :
  exists rest,
    st_messages (agent_loop cap w tools user_input)
    = [MSystem system_prompt; MUser user_input] ++ rest /\
    forallb appended_by_loop rest = true /\
    ~ In nudge rest.
Proof.
  assert (Hnudge : forall rest, forallb appended_by_loop rest = true -> ~ In nudge rest).
  { intros rest Hkind Hin.
    apply (proj1 (forallb_forall _ _) Hkind) in Hin. discriminate Hin. }
  destruct (msg_tool_calls (first_response w tools user_input)) as [| tc tcs] eqn:Hfirst.
  - exists []. rewrite (agent_loop_direct cap w tools user_input Hfirst).
    split; [reflexivity |]. split; [reflexivity | intros []].
  - assert (Hcalls : msg_tool_calls (first_response w tools user_input) <> [])
      by (rewrite Hfirst; discriminate).
    rewrite (agent_loop_finalized cap w tools user_input Hcalls). cbv zeta. simpl st_messages.
    unfold loop_exit.
    destruct (while_loop_appends (build_openai_tools_schema tools) cap 0
                (loop_entry w tools user_input) (first_response w tools user_input))
      as (suffix & k & Hmsgs & Hkind & _).
    cbv zeta in Hmsgs. rewrite Hmsgs.
    exists (MAssistant (content_or_empty (msg_content (first_response w tools user_input)))
                       (msg_tool_calls (first_response w tools user_input)) :: suffix).
    split; [reflexivity |].
    assert (Hall : forallb appended_by_loop
                     (MAssistant (content_or_empty (msg_content (first_response w tools user_input)))
                                 (msg_tool_calls (first_response w tools user_input)) :: suffix)
                   = true) by exact Hkind.
    split; [exact Hall | apply Hnudge; exact Hall].
Qed.


(** X10: the transcript only grows: what a completion request carries
    is a prefix of the transcript the run ends with, followed by the
    nudge in the case of a continuation request. *)
Theorem transcript_append_only `{E : Env} (cap : nat) (w : world)
    (tools : list ToolDescriptor) (user_input : string) :
  let run := agent_loop cap w tools user_input in
  Forall (fun req => exists before rest,
              st_messages run = before ++ rest /\
              (req_messages req = before \/ req_messages req = before ++ [nudge]))
         (completions (st_events run)).
Proof.
  cbv zeta.
  destruct (msg_tool_calls (first_response w tools user_input)) as [| tc tcs] eqn:Hfirst.
  - rewrite (agent_loop_direct cap w tools user_input Hfirst).
    simpl st_messages. simpl st_events.
    change (completions (ECompletion ?r :: ?l)) with (r :: completions l).
    rewrite completions_print. constructor; [| constructor].
    exists [MSystem system_prompt; MUser user_input], [].
    split; [reflexivity | left; reflexivity].
  - assert (Hcalls : msg_tool_calls (first_response w tools user_input) <> [])
      by (rewrite Hfirst; discriminate).
    rewrite (agent_loop_finalized cap w tools user_input Hcalls). cbv zeta.
    simpl st_messages. simpl st_events.
    destruct (while_loop_answered (build_openai_tools_schema tools) cap 0
                (loop_entry w tools user_input) (first_response w tools user_input)
                [MSystem system_prompt; MUser user_input]
                (content_or_empty (msg_content (first_response w tools user_input)))
                (answered_seed system_prompt user_input) eq_refl)
      as (new & suffix & Hev & Hmsgs & Hall & _).
    fold (loop_exit cap w tools user_input) in Hev, Hmsgs, Hall.
    set (st' := fst (loop_exit cap w tools user_input)) in *.
    rewrite completions_app, Hev, completions_app. rewrite <- app_assoc.
    apply Forall_app. split; [| apply Forall_app; split].
    + unfold loop_entry. simpl st_events.
      change (completions (ECompletion ?r :: ?l)) with (r :: completions l).
      rewrite completions_print. constructor; [| constructor].
      exists [MSystem system_prompt; MUser user_input],
             (MAssistant (content_or_empty (msg_content (first_response w tools user_input)))
                         (msg_tool_calls (first_response w tools user_input)) :: suffix).
      split; [rewrite Hmsgs; reflexivity | left; reflexivity].
    + eapply Forall_impl; [| exact Hall].
      intros req (before & rest & _ & Hreq & Hfinal).
      exists before, rest. split; [exact Hfinal | right; exact Hreq].
    + constructor; [| constructor].
      exists (st_messages st'), []. rewrite app_nil_r. split; [reflexivity | left; reflexivity].
Qed.

(** X11: in the transcript a run ends with, the tool messages answer the
    requests in the order they were made, one for one, and only the
    requests of a last batch that was not executed can be left over. *)
Theorem answers_follow_requests `{E : Env} (cap : nat) (w : world)
    (tools : list ToolDescriptor) (user_input : string) :
  let messages := st_messages (agent_loop cap w tools user_input) in
  exists pending,
    request_ids messages = tool_ids messages ++ pending /\
    (open_batch messages = false -> pending = []).
Proof.
  cbv zeta.
  destruct (msg_tool_calls (first_response w tools user_input)) as [| tc tcs] eqn:Hfirst.
  - rewrite (agent_loop_direct cap w tools user_input Hfirst).
    exists []. split; [reflexivity | intros _; reflexivity].
  - assert (Hcalls : msg_tool_calls (first_response w tools user_input) <> [])
      by (rewrite Hfirst; discriminate).
    rewrite (agent_loop_finalized cap w tools user_input Hcalls). cbv zeta.
    simpl st_messages.
    destruct (while_loop_answered (build_openai_tools_schema tools) cap 0
                (loop_entry w tools user_input) (first_response w tools user_input)
                [MSystem system_prompt; MUser user_input]
                (content_or_empty (msg_content (first_response w tools user_input)))
                (answered_seed system_prompt user_input) eq_refl)
      as (new & suffix & _ & _ & _ & Hexit).
    fold (loop_exit cap w tools user_input) in Hexit.
    destruct Hexit as [Hans | [_ (before & c & calls & Hans & Hmsgs)]].
    + exists []. rewrite app_nil_r, (answered_ids _ Hans).
      split; [reflexivity | intros _; reflexivity].
    + exists (map tc_id (requests calls)). rewrite Hmsgs.
      rewrite request_ids_app, tool_ids_app, (answered_ids _ Hans). simpl.
      rewrite !app_nil_r. split; [reflexivity |].
      unfold open_batch. rewrite last_last. intros Hclosed.
      rewrite (requests_none _ Hclosed). reflexivity.
Qed.

(** X12: the transcript a run ends with is the one its last completion
    request carried: the reply to that request is printed, not stored. *)
Theorem last_reply_not_stored `{E : Env} (cap : nat) (w : world)
    (tools : list ToolDescriptor) (user_input : string) :
  let run := agent_loop cap w tools user_input in
  req_messages (last (completions (st_events run)) (seeded_request tools user_input))
  = st_messages run.
Proof.
  cbv zeta.
  destruct (msg_tool_calls (first_response w tools user_input)) as [| tc tcs] eqn:Hfirst.
  - rewrite (agent_loop_direct cap w tools user_input Hfirst).
    simpl st_messages. simpl st_events.
    change (completions (ECompletion ?r :: ?l)) with (r :: completions l).
    rewrite completions_print. reflexivity.
  - assert (Hcalls : msg_tool_calls (first_response w tools user_input) <> [])
      by (rewrite Hfirst; discriminate).
    rewrite (agent_loop_finalized cap w tools user_input Hcalls). cbv zeta.
    simpl st_messages. simpl st_events.
    rewrite completions_app.
    change (completions [EPrintCompleted ?i; ECompletion ?r; EPrintFinal ?t]) with [r].
    rewrite last_last. reflexivity.
Qed.

(** ** More on one tool call *)





(** ** What a run does to the outside world *)

Section WorldInvariant.
Context `{E : Env}.
Variable P : world -> Prop.
Hypothesis complete_keeps : forall w req, P w -> P (fst (complete w req)).
Hypothesis call_tool_keeps : forall w name args, P w -> P (fst (call_tool w name args)).
Hypothesis print_keeps : forall w text, P w -> P (fst (print_result w text)).

Lemma tool_message_world (w : world) (outcome : Exc PyVal) :
  P w -> P (fst (tool_message_content w outcome)).
Proof.
  intros Hw. unfold tool_message_content.
  destruct (result <- outcome ;; tool_result_to_text result) as [text | e]; [| exact Hw].
  pose proof (print_keeps w text Hw) as Hprint.
  destruct (print_result w text). exact Hprint.
Qed.

Lemma execute_fold_world (tool_calls : list ToolCall) :
  forall (st : State) (made : bool),
    P (st_world st) ->
    P (st_world (fst (fold_left execute_tool_call tool_calls (st, made)))).
Proof.
  induction tool_calls as [| tc tcs IH]; intros st made Hst; [exact Hst |].
  change (fold_left execute_tool_call (tc :: tcs) (st, made))
    with (fold_left execute_tool_call tcs (execute_tool_call (st, made) tc)).
  destruct (is_function tc) eqn:Hf.
  - rewrite (execute_tool_call_function st made tc Hf). cbv zeta.
    apply IH. simpl. apply tool_message_world, call_tool_keeps. exact Hst.
  - rewrite (execute_tool_call_other st made tc Hf). apply IH. exact Hst.
Qed.

Lemma while_loop_world (openai_tools : list FunctionSpec) (remaining : nat) :
  forall (iteration : nat) (st : State) (msg : ChatMessage),
    P (st_world st) ->
    P (st_world (fst (while_loop openai_tools remaining iteration st msg))).
Proof.
  induction remaining as [| n IH]; intros iteration st msg Hst; [exact Hst |].
  destruct (existsb is_function (msg_tool_calls msg)) eqn:Hsome.
  - rewrite (while_loop_step openai_tools n iteration st msg Hsome). cbv zeta.
    assert (Hst1 : P (st_world (fst (execute_tool_calls st (msg_tool_calls msg)))))
      by (apply execute_fold_world; exact Hst).
    destruct (msg_tool_calls (snd (complete _ _))).
    + simpl. apply complete_keeps. exact Hst1.
    + apply IH. simpl. apply complete_keeps. exact Hst1.
  - rewrite (while_loop_break openai_tools n iteration st msg Hsome). exact Hst.
Qed.

Lemma agent_loop_world (cap : nat) (w : world) (tools : list ToolDescriptor)
    (user_input : string) :
  P w -> P (st_world (agent_loop cap w tools user_input)).
Proof.
  intros Hw.
  destruct (msg_tool_calls (first_response w tools user_input)) as [| tc tcs] eqn:Hfirst.
  - rewrite (agent_loop_direct cap w tools user_input Hfirst). simpl.
    apply complete_keeps. exact Hw.
  - assert (Hcalls : msg_tool_calls (first_response w tools user_input) <> [])
      by (rewrite Hfirst; discriminate).
    rewrite (agent_loop_finalized cap w tools user_input Hcalls). cbv zeta. simpl.
    apply complete_keeps. unfold loop_exit. apply while_loop_world.
    unfold loop_entry. simpl. apply complete_keeps. exact Hw.
Qed.

End WorldInvariant.

(** ** The guard of MCPClient *)

(** X16: [list_tools] and [call_tool] raise on a client object that was
    never started and leave it as it is; once [start] has assigned the
    library's client they go through to it, after a [stop] as well:
    [stop] does not bring the guard back. *)
Theorem guard_follows_assignment `{R : Remote} (self : MCPClient.t) (c : conn)
    (name : string) (arguments : PyVal) :
  (MCPClient.client self = None ->
   MCPClientCalls.list_tools self = (self, Raise "MCP client not started") /\
   MCPClientCalls.call_tool self name arguments = (self, Raise "MCP client not started")) /\
  (Client (MCPClient.server_path self) = Ok c ->
   let started := fst (fst (MCPClient.start self)) in
   let stopped := fst (fst (MCPClient.stop started)) in
   snd (MCPClientCalls.list_tools started) = snd (client_list_tools (fst (aenter c))) /\
   snd (MCPClientCalls.call_tool started name arguments)
   = snd (client_call_tool (fst (aenter c)) name arguments) /\
   snd (MCPClientCalls.list_tools stopped)
   = snd (client_list_tools (fst (aexit (fst (aenter c))))) /\
   snd (MCPClientCalls.call_tool stopped name arguments)
   = snd (client_call_tool (fst (aexit (fst (aenter c)))) name arguments)).
Proof.
  split.
  - intros Hnone. unfold MCPClientCalls.list_tools, MCPClientCalls.call_tool.
    rewrite Hnone. split; reflexivity.
  - intros Hnew. cbv zeta. unfold MCPClient.start. rewrite Hnew.
    destruct (aenter c) as [c1 entered]. simpl.
    unfold MCPClient.stop. simpl. destruct (aexit c1) as [c2 left]. simpl.
    unfold MCPClientCalls.list_tools, MCPClientCalls.call_tool. simpl.
    destruct (client_list_tools c1), (client_call_tool c1 name arguments),
             (client_list_tools c2), (client_call_tool c2 name arguments).
    repeat split.
Qed.

Lemma guard_follows_assignment_witness :
  @MCPClientCalls.call_tool quiet_library quiet_remote
     (MCPClient.init "build/index.js") "create_form" (PDict [])
  = (MCPClient.init "build/index.js", Raise "MCP client not started").
Proof.
  apply (proj1 (@guard_follows_assignment quiet_library quiet_remote
                  (MCPClient.init "build/index.js") tt "create_form" (PDict []))).
  reflexivity.
Defined.

(** ** main around the loop *)

Section Main.
Context `{H : Host} `{R : Remote}.

(** In the loop of [main] the client object stays assigned. *)
Lemma session_keeps_client (cap : nat) (w : @world session_env)
    (tools : list ToolDescriptor) (user_input : string) :
  MCPClient.client (snd w) <> None ->
  MCPClient.client (snd (@st_world session_env (@agent_loop session_env cap w tools user_input)))
  <> None.
Proof.
  apply (@agent_loop_world session_env (fun w => MCPClient.client (snd w) <> None)).
  - intros [m self] req Hself. simpl. destruct (create m req). exact Hself.
  - intros [m self] name args Hself. simpl.
    unfold MCPClientCalls.call_tool.
    destruct (MCPClient.client self) as [c |]; [| exact Hself].
    destruct (client_call_tool c name args). simpl. discriminate.
  - intros w0 text Hself. exact Hself.
Qed.

(** The [try] of [main] from a fresh client object: the calls on the
    library and the client object it leaves. *)
Lemma main_try_lifecycle (m : model) (path user_input : string) :
  let result := main_try m (MCPClient.init path) user_input in
  match Client path with
  | Ok _ => snd (fst result) = [CallAEnter] /\
            MCPClient.client (snd (fst (fst result))) <> None
  | Raise _ => snd (fst result) = [] /\
               MCPClient.client (snd (fst (fst result))) = None /\
               snd result = None
  end.
Proof.
  cbv zeta. unfold main_try, MCPClient.start. simpl.
  destruct (Client path) as [c | e]; [| repeat split].
  destruct (aenter c) as [c1 [[] | e]]; [| split; [reflexivity | discriminate]].
  unfold MCPClientCalls.list_tools. simpl.
  destruct (client_list_tools c1) as [c2 [tools | e]];
    [| split; [reflexivity | discriminate]].
  split; [reflexivity |]. simpl.
  apply (session_keeps_client max_iterations). simpl. discriminate.
Qed.

(** X17: past its checks, [main] leaves the connection on every path:
    when the client object could be built, [__aenter__] is followed by
    exactly one [__aexit__], whether entering, listing the tools or
    nothing failed; when it could not, no call is made on the library. *)
Theorem main_cleanup (m : model) :
  api_key_missing = false ->
  server_missing = false ->
  strip input_line <> "" ->
  snd (fst (run_main m))
  = match Client configured_server_path with
    | Ok _ => [CallAEnter; CallAExit]
    | Raise _ => []
    end.
Proof.
  intros Hkey Hserver Hinput. unfold run_main. rewrite Hkey, Hserver.
  destruct (String.eqb_spec (strip input_line) "") as [Heq | _]; [contradiction |].
  pose proof (main_try_lifecycle m configured_server_path (strip input_line)) as Htry.
  cbv zeta in Htry.
  destruct (main_try m (MCPClient.init configured_server_path) (strip input_line))
    as [[[body self'] calls] st].
  simpl in Htry. unfold MCPClient.stop.
  destruct (Client configured_server_path) as [c | e].
  - destruct Htry as [-> Hself].
    destruct (MCPClient.client self') as [c' |]; [| exfalso; apply Hself; reflexivity].
    destruct (aexit c'). reflexivity.
  - destruct Htry as (-> & -> & _). reflexivity.
Qed.

(** X18: a failure to build the client, to enter the connection or to
    list the tools ends [main] with an exception before any completion
    request is issued. *)
Theorem main_aborts_before_completion (m : model) :
  api_key_missing = false ->
  server_missing = false ->
  strip input_line <> "" ->
  (exists e, Client configured_server_path = Raise e) \/
  (exists c e, Client configured_server_path = Ok c /\
               (snd (aenter c) = Raise e \/
                snd (client_list_tools (fst (aenter c))) = Raise e)) ->
  snd (run_main m) = None /\
  exists e, fst (fst (run_main m)) = ExitRaised e.
Proof.
  intros Hkey Hserver Hinput Hfault. unfold run_main. rewrite Hkey, Hserver.
  destruct (String.eqb_spec (strip input_line) "") as [Heq | _]; [contradiction |].
  unfold main_try, MCPClient.start. simpl.
  destruct Hfault as [(e & ->) | (c & e & -> & Hfault)].
  - simpl. split; [reflexivity | exists e; reflexivity].
  - destruct (aenter c) as [c1 entered]. simpl in Hfault.
    destruct entered as [[] | e1].
    + destruct Hfault as [Habs | Hlist]; [discriminate Habs |].
      unfold MCPClientCalls.list_tools. simpl.
      destruct (client_list_tools c1) as [c2 listed]. simpl in Hlist. subst listed.
      unfold MCPClient.stop. simpl. destruct (aexit c2) as [c3 [[] | e3]];
        (split; [reflexivity | eexists; reflexivity]).
    + unfold MCPClient.stop. simpl. destruct (aexit c1) as [c3 [[] | e3]];
        (split; [reflexivity | eexists; reflexivity]).
Qed.

(** X19: a missing API key, a missing server file and a blank request
    each end [main] before the client object is built: no call is made
    on the library, no completion request is issued, and [main] does
    not end as a completed run. *)
Theorem main_checks_first (m : model) :
  api_key_missing || server_missing || (strip input_line =? "")%string = true ->
  snd (fst (run_main m)) = [] /\
  snd (run_main m) = None /\
  fst (fst (run_main m)) <> ExitDone.
Proof.
  intros Hcheck. unfold run_main.
  destruct api_key_missing; [repeat split; discriminate |].
  destruct server_missing; [repeat split; discriminate |].
  simpl in Hcheck. rewrite Hcheck. repeat split. discriminate.
Qed.

End Main.

Lemma main_cleanup_witness :
  snd (fst (@run_main (sample_host (Some "sk-test") request_text)
              refusing_library refusing_remote 0))
  = [CallAEnter; CallAExit].
Proof.
  apply (@main_cleanup (sample_host (Some "sk-test") request_text)
           refusing_library refusing_remote 0);
    [reflexivity | reflexivity | discriminate].
Defined.

Lemma main_aborts_before_completion_witness :
  snd (@run_main (sample_host (Some "sk-test") request_text)
         refusing_library refusing_remote 0) = None.
Proof.
  apply (@main_aborts_before_completion (sample_host (Some "sk-test") request_text)
           refusing_library refusing_remote 0);
    [reflexivity | reflexivity | discriminate |].
  right. exists tt, "connection refused". split; [reflexivity | left; reflexivity].
Defined.

Lemma main_checks_first_witness :
  snd (fst (@run_main (sample_host None request_text) quiet_library quiet_remote 0)) = []
  /\ fst (fst (@run_main (sample_host (Some "sk-test") "  ") quiet_library quiet_remote 0))
      <> ExitDone.
Proof.
  split.
  - apply (@main_checks_first (sample_host None request_text) quiet_library quiet_remote 0).
    reflexivity.
  - apply (@main_checks_first (sample_host (Some "sk-test") "  ") quiet_library quiet_remote 0).
    reflexivity.
Defined.
